(** * Pretium-Engineering: the PDF knowledge pipeline of [pdf_extractor.py]

    A shallow embedding of [PDFExtractor] (text chunker, embedding client,
    PDF content fetcher and processing orchestrator) and the properties the
    specification states about it.

    Conventions of the embedding:
    - the text of a document, which the chunker reads character by
      character, is a [list ascii] (code points below 256), and [lit] turns
      a literal into one; identifiers, paths and messages, which are only
      stored and compared, are [string]s;
    - Python [int] arguments are [Z]; lengths and indices are [nat];
    - code that prints, calls a remote service or touches the local file
      system runs in the monad [M]: a function from the [World] to a new
      [World] and an [outcome] (a value, or the message of a raised
      exception). *)

From Stdlib Require Import ZArith List Ascii String Bool Lia.
From stdpp Require Import base gmap strings list fin_maps.
Import ListNotations.

Local Open Scope nat_scope.

(* ===================================================================== *)
(** ** Python strings *)
(* ===================================================================== *)

Module Py.

(** A literal, as a list of characters. *)
Definition lit (s : string) : list ascii := list_ascii_of_string s.

(** [str.isspace] for one character, on the Latin-1 range:
    TAB..CR, FS..US, SPACE, NEL and NBSP. *)
Definition isspace (c : ascii) : bool :=
  let n := nat_of_ascii c in
  ((9 <=? n) && (n <=? 13)) || ((28 <=? n) && (n <=? 32))
  || (n =? 133) || (n =? 160).

(** The line feed. *)
Definition newline : list ascii := ["010"%char].

(** [s.lstrip()] *)
Fixpoint lstrip (s : list ascii) : list ascii :=
  match s with
  | [] => []
  | c :: rest => if isspace c then lstrip rest else s
  end.

(** [s.rstrip()] *)
Definition rstrip (s : list ascii) : list ascii := rev (lstrip (rev s)).

(** [s.strip()] *)
Definition strip (s : list ascii) : list ascii := rstrip (lstrip s).

(** [s.startswith(p)] *)
Fixpoint startswith (p s : list ascii) : bool :=
  match p, s with
  | [], _ => true
  | _ :: _, [] => false
  | a :: p', b :: s' => Ascii.eqb a b && startswith p' s'
  end.

(** Adds a character in front of the first piece. *)
Definition push (c : ascii) (pieces : list (list ascii)) : list (list ascii) :=
  match pieces with
  | [] => [[c]]
  | p :: ps => (c :: p) :: ps
  end.

(** The scan of [s.split(sep)], left to right: [skip] counts the characters
    of a separator found earlier that are still to be passed over. *)
Fixpoint split_from (sep s : list ascii) (skip : nat) : list (list ascii) :=
  match s with
  | [] => [[]]
  | c :: rest =>
      match skip with
      | S k => split_from sep rest k
      | O =>
          if startswith sep s
          then [] :: split_from sep rest (length sep - 1)
          else push c (split_from sep rest 0)
      end
  end.

(** [s.split(sep)] for a non-empty separator. *)
Definition split (s sep : list ascii) : list (list ascii) :=
  split_from sep s 0.

(** [sep.join(pieces)] *)
Fixpoint join (sep : list ascii) (pieces : list (list ascii)) : list ascii :=
  match pieces with
  | [] => []
  | p :: rest =>
      match rest with
      | [] => p
      | _ :: _ => p ++ sep ++ join sep rest
      end
  end.

(** [bool(s)]: a string is true when it is not empty. *)
Definition truthy (s : list ascii) : bool :=
  match s with [] => false | _ :: _ => true end.

(** [len(s)] as a Python integer. *)
Definition len (s : list ascii) : Z := Z.of_nat (length s).

End Py.

(* ===================================================================== *)
(** ** Text chunker: [split_into_chunks] *)
(* ===================================================================== *)

(** The separator of the chunker. *)
Definition sep : list ascii := Py.lit ". ".

(** [sentence.strip() + ". "] *)
Definition unit_of (sentence : list ascii) : list ascii :=
  Py.strip sentence ++ sep.

(** [if current_chunk.strip(): chunks.append(current_chunk.strip())] *)
Definition flush (chunks : list (list ascii)) (current_chunk : list ascii)
  : list (list ascii) :=
  if Py.truthy (Py.strip current_chunk)
  then chunks ++ [Py.strip current_chunk]
  else chunks.

(** One turn of the [for sentence in sentences] loop on the pair
    [(chunks, current_chunk)]. *)
Definition chunk_step (max_chunk_size : Z)
    (st : list (list ascii) * list ascii) (sentence : list ascii)
  : list (list ascii) * list ascii :=
  let '(chunks, current_chunk) := st in
  let sentence := unit_of sentence in
  if (Py.len current_chunk + Py.len sentence >? max_chunk_size)%Z
  then (flush chunks current_chunk, sentence)
  else (chunks, current_chunk ++ sentence).

(** The whole loop. *)
Definition chunk_loop (max_chunk_size : Z) (sentences : list (list ascii))
    (st : list (list ascii) * list ascii) : list (list ascii) * list ascii :=
  fold_left (chunk_step max_chunk_size) sentences st.

(** [split_into_chunks(text, max_chunk_size, overlap)]; [overlap] is accepted
    and never read. *)
Definition split_into_chunks (text : list ascii) (max_chunk_size : Z)
    (overlap : Z) : list (list ascii) :=
  let sentences := Py.split text sep in
  let '(chunks, current_chunk) :=
    chunk_loop max_chunk_size sentences ([], []) in
  flush chunks current_chunk.

(** The defaults of the signature. *)
Definition default_max_chunk_size : Z := 1000.
Definition default_overlap : Z := 200.

(* ===================================================================== *)
(** ** The world the pipeline runs in *)
(* ===================================================================== *)

(** [str(e)] of a raised exception. *)
Definition exn : Type := string.

(** What a call gives: a value, or a raised exception. *)
Inductive outcome (A : Type) : Type :=
| Ok (a : A)
| Raise (e : exn).
Arguments Ok {A} a.
Arguments Raise {A} e.

(** One row of the table [project_knowledge]. *)
Record KnowledgeRecord : Type := {
  kr_id : string;
  kr_project_id : string;
  kr_file_path : string;
  kr_file_name : string;
  kr_processed : bool;
  kr_processed_at : option nat;
  kr_chunks_count : option nat;
  kr_processing_error : option string
}.

(** The lines the code prints. *)
Inductive log_entry : Type :=
| LogBatchOk (batch_no got : nat)
| LogBatchError (batch_no : nat) (e : exn)
| LogExtractError (e : exn)
| LogProcessing (file_name : string)
| LogExtracting
| LogExtracted (n : nat)
| LogSplitting
| LogCreated (n : nat)
| LogGenerating
| LogStoring
| LogStored (i n : nat)
| LogStoreError (i : nat) (e : exn)
| LogSuccess (file_name : string)
| LogProcessError (e : exn)
| LogFetchError (e : exn)
| LogFound (n : nat)
| LogFailed (file_name : string) (e : exn).

(** What [page.extract_text()] gives for one page. *)
Definition page : Type := outcome (option (list ascii)).

(** The dimension of the placeholder vectors: [[0.0] * 1536]. *)
Definition EMBEDDING_DIM : nat := 1536.

(** The batch size of [embed_texts]. *)
Definition BATCH : nat := 100.

Section Model.

(** The numbers of an embedding vector, and [0.0]. *)
Context {F : Type} (zero : F).

(** One row of the table [project_embeddings]. *)
Record EmbeddingRow : Type := {
  er_project_id : string;
  er_knowledge_id : string;
  er_content_chunk : list ascii;
  er_embedding : list F;
  er_chunk_index : nat;
  er_created_at : nat
}.

(** The state the code reads and writes: the local files, the two tables,
    the printed lines (oldest first) and the time [now], which every call
    that leaves the process advances. *)
Record World : Type := {
  files : gmap string (list Byte.byte);
  project_knowledge : list KnowledgeRecord;
  project_embeddings : list EmbeddingRow;
  stdout : list log_entry;
  now : nat
}.

(** The collaborators, as functions of the time of the call:
    the storage bucket, the local disk, the PDF library, the embedding
    service and the datastore. A fault is the exception the call raises. *)
Record Env : Type := {
  storage_download : nat -> string -> outcome (option (list Byte.byte));
  open_wb_fault : nat -> string -> option exn;
  pdfplumber_open : list Byte.byte -> outcome (list page);
  embeddings_create : nat -> list (list ascii) -> outcome (list (list F));
  insert_fault : nat -> EmbeddingRow -> option exn;
  update_fault : nat -> string -> option exn;
  select_fault : nat -> option exn
}.

(** *** The monad of effects *)

Definition M (A : Type) : Type := World -> World * outcome A.

Definition ret {A} (a : A) : M A := fun w => (w, Ok a).

Definition raise {A} (e : exn) : M A := fun w => (w, Raise e).

Definition bind {A B} (m : M A) (k : A -> M B) : M B :=
  fun w =>
    match m w with
    | (w', Ok a) => k a w'
    | (w', Raise e) => (w', Raise e)
    end.

(** [try: m  except Exception as e: h(e)] *)
Definition try_except {A} (m : M A) (h : exn -> M A) : M A :=
  fun w =>
    match m w with
    | (w', Ok a) => (w', Ok a)
    | (w', Raise e) => h e w'
    end.

(** [print(...)] *)
Definition print (l : log_entry) : M unit :=
  fun w =>
    ({| files := files w; project_knowledge := project_knowledge w;
        project_embeddings := project_embeddings w;
        stdout := stdout w ++ [l]; now := now w |}, Ok tt).

(** The time of a call that leaves the process; the time then advances. *)
Definition tick : M nat :=
  fun w =>
    ({| files := files w; project_knowledge := project_knowledge w;
        project_embeddings := project_embeddings w;
        stdout := stdout w; now := S (now w) |}, Ok (now w)).

(** An outcome, as a computation. *)
Definition lift {A} (o : outcome A) : M A := fun w => (w, o).

(** A [for] loop over [xs] with the body [f]. *)
Fixpoint for_each {A} (xs : list A) (f : A -> M unit) : M unit :=
  match xs with
  | [] => ret tt
  | x :: rest => bind (f x) (fun _ => for_each rest f)
  end.

End Model.

Arguments World : clear implicits.
Arguments Env : clear implicits.
Arguments EmbeddingRow : clear implicits.
Arguments M : clear implicits.

Notation "x <- c1 ;; c2" := (bind c1 (fun x => c2))
  (at level 90, c1 at next level, right associativity).
Notation "c1 ;;; c2" := (bind c1 (fun _ => c2))
  (at level 90, right associativity).


(* ===================================================================== *)
(** ** Python lists *)
(* ===================================================================== *)

(** [range(0, stop, step)] for a positive [step]. *)
Definition py_range (stop step : nat) : list nat :=
  map (fun k => k * step) (seq 0 ((stop + (step - 1)) / step)).

(** [l[i:j]] for indices that are not negative. *)
Definition slice {A} (l : list A) (i j : nat) : list A :=
  firstn (j - i) (skipn i l).

(** [enumerate(l)] *)
Definition enumerate {A} (l : list A) : list (nat * A) :=
  combine (seq 0 (length l)) l.

(** [os.path.basename(p)]: what follows the last slash. *)
Fixpoint has_slash (p : string) : bool :=
  match p with
  | EmptyString => false
  | String c rest => Ascii.eqb c "/" || has_slash rest
  end.

Fixpoint basename (p : string) : string :=
  match p with
  | EmptyString => EmptyString
  | String c rest =>
      if has_slash rest then basename rest
      else if Ascii.eqb c "/" then rest else p
  end.

(* ===================================================================== *)
(** ** The pipeline: [PDFExtractor] *)
(* ===================================================================== *)

Section Pipeline.

Context {F : Type} (zero : F) (env : Env F).

Local Abbreviation World := (World F).
Local Abbreviation M := (M F).

(** *** Embedding client *)

(** [np.array(rows)]: the rows as a table; rows of different lengths are
    refused with a [ValueError]. *)
Definition np_array (rows : list (list F)) : outcome (list (list F)) :=
  match rows with
  | [] => Ok []
  | r :: _ =>
      if forallb (fun r' => length r' =? length r) rows
      then Ok rows
      else Raise "setting an array element with a sequence"
  end.

(** [[[0.0] * 1536] * n] *)
Definition zero_embeddings (n : nat) : list (list F) :=
  repeat (repeat zero EMBEDDING_DIM) n.

(** The body of the [for i in range(0, len(texts), 100)] loop. *)
Definition embed_batch (texts : list (list ascii)) (i : nat)
    (embeddings : list (list F)) : M (list (list F)) :=
  let batch := slice texts i (i + BATCH) in
  try_except
    (t <- tick ;;
     batch_embeddings <- lift (embeddings_create env t batch) ;;
     print (LogBatchOk (i / BATCH + 1) (length batch_embeddings)) ;;;
     ret (embeddings ++ batch_embeddings))
    (fun e =>
       print (LogBatchError (i / BATCH + 1) e) ;;;
       ret (embeddings ++ zero_embeddings (length batch))).

Fixpoint embed_loop (texts : list (list ascii)) (starts : list nat)
    (embeddings : list (list F)) : M (list (list F)) :=
  match starts with
  | [] => ret embeddings
  | i :: rest =>
      embeddings' <- embed_batch texts i embeddings ;;
      embed_loop texts rest embeddings'
  end.

(** [embed_texts(texts)] *)
Definition embed_texts (texts : list (list ascii)) : M (list (list F)) :=
  embeddings <- embed_loop texts (py_range (length texts) BATCH) [] ;;
  lift (np_array embeddings).

(** *** PDF content fetcher *)

(** [open(temp_path, 'wb')] and [f.write(response)] *)
Definition write_file (path : string) (data : list Byte.byte) : M unit :=
  t <- tick ;;
  match open_wb_fault env t path with
  | Some e => raise e
  | None =>
      fun w =>
        ({| files := <[path := data]> (files w);
            project_knowledge := project_knowledge w;
            project_embeddings := project_embeddings w;
            stdout := stdout w; now := now w |}, Ok tt)
  end.

(** [os.remove(path)] *)
Definition os_remove (path : string) : M unit :=
  fun w =>
    match files w !! path with
    | None => (w, Raise "No such file or directory")
    | Some _ =>
        ({| files := delete path (files w);
            project_knowledge := project_knowledge w;
            project_embeddings := project_embeddings w;
            stdout := stdout w; now := now w |}, Ok tt)
    end.

(** [pdfplumber.open(path)]: the pages of the file at [path]. *)
Definition open_pdf (path : string) : M (list page) :=
  fun w =>
    match files w !! path with
    | None => (w, Raise "No such file or directory")
    | Some data => (w, pdfplumber_open env data)
    end.

(** The [for page in pdf.pages] loop on [text_content]. *)
Fixpoint extract_pages (pages : list page) (text_content : list ascii)
  : outcome (list ascii) :=
  match pages with
  | [] => Ok text_content
  | Raise e :: _ => Raise e
  | Ok None :: rest => extract_pages rest text_content
  | Ok (Some page_text) :: rest =>
      if Py.truthy page_text
      then extract_pages rest (text_content ++ page_text ++ Py.newline)
      else extract_pages rest text_content
  end.

(** The scratch file of a storage path. *)
Definition temp_path_of (file_path : string) : string :=
  ("temp_" +:+ basename file_path)%string.

(** [get_pdf_content_from_supabase(file_path)] *)
Definition get_pdf_content_from_supabase (file_path : string)
  : M (list ascii) :=
  try_except
    (t <- tick ;;
     response <- lift (storage_download env t file_path) ;;
     match response with
     | None => raise "Failed to download file from Supabase"
     | Some data =>
         let temp_path := temp_path_of file_path in
         write_file temp_path data ;;;
         pages <- open_pdf temp_path ;;
         text_content <- lift (extract_pages pages []) ;;
         os_remove temp_path ;;;
         ret text_content
     end)
    (fun e => print (LogExtractError e) ;;; ret []).

(** *** Datastore *)

(** [supabase.table('project_embeddings').insert(row).execute()] *)
Definition db_insert (row : nat -> EmbeddingRow F) : M unit :=
  t <- tick ;;
  match insert_fault env t (row t) with
  | Some e => raise e
  | None =>
      fun w =>
        ({| files := files w;
            project_knowledge := project_knowledge w;
            project_embeddings := project_embeddings w ++ [row t];
            stdout := stdout w; now := now w |}, Ok tt)
  end.

(** The rows with the given id, changed by [patch]. *)
Definition patch_rows (knowledge_id : string)
    (patch : KnowledgeRecord -> KnowledgeRecord)
    (table : list KnowledgeRecord) : list KnowledgeRecord :=
  map (fun r => if String.eqb (kr_id r) knowledge_id then patch r else r) table.

(** [supabase.table('project_knowledge').update(patch).eq('id', id).execute()] *)
Definition db_update (knowledge_id : string)
    (patch : nat -> KnowledgeRecord -> KnowledgeRecord) : M unit :=
  t <- tick ;;
  match update_fault env t knowledge_id with
  | Some e => raise e
  | None =>
      fun w =>
        ({| files := files w;
            project_knowledge :=
              patch_rows knowledge_id (patch t) (project_knowledge w);
            project_embeddings := project_embeddings w;
            stdout := stdout w; now := now w |}, Ok tt)
  end.

(** [{'processed': True, 'processed_at': 'now()', 'chunks_count': n}] *)
Definition success_patch (n : nat) (t : nat) (r : KnowledgeRecord)
  : KnowledgeRecord :=
  {| kr_id := kr_id r; kr_project_id := kr_project_id r;
     kr_file_path := kr_file_path r; kr_file_name := kr_file_name r;
     kr_processed := true; kr_processed_at := Some t;
     kr_chunks_count := Some n;
     kr_processing_error := kr_processing_error r |}.

(** [{'processed': False, 'processing_error': str(e)}] *)
Definition failure_patch (e : exn) (t : nat) (r : KnowledgeRecord)
  : KnowledgeRecord :=
  {| kr_id := kr_id r; kr_project_id := kr_project_id r;
     kr_file_path := kr_file_path r; kr_file_name := kr_file_name r;
     kr_processed := false; kr_processed_at := kr_processed_at r;
     kr_chunks_count := kr_chunks_count r;
     kr_processing_error := Some e |}.

(** *** Orchestrator *)

(** The body of the loop that stores the chunks. *)
Definition store_chunk (project_id knowledge_id : string) (total : nat)
    (item : nat * (list ascii * list F)) : M unit :=
  let '(i, (chunk, embedding)) := item in
  try_except
    (db_insert (fun t =>
       {| er_project_id := project_id; er_knowledge_id := knowledge_id;
          er_content_chunk := chunk; er_embedding := embedding;
          er_chunk_index := i; er_created_at := t |}) ;;;
     print (LogStored (i + 1) total))
    (fun e => print (LogStoreError i e)).

(** The message of the exception raised for an empty text. *)
Definition NO_TEXT : exn := "No text content extracted from PDF".

(** [process_pdf_and_store_embeddings(project_id, knowledge_id, file_path,
    file_name)] *)
Definition process_pdf_and_store_embeddings
    (project_id knowledge_id file_path file_name : string) : M unit :=
  try_except
    (print (LogProcessing file_name) ;;;
     print LogExtracting ;;;
     text_content <- get_pdf_content_from_supabase file_path ;;
     (if Py.truthy text_content then ret tt else raise NO_TEXT) ;;;
     print (LogExtracted (length text_content)) ;;;
     print LogSplitting ;;;
     let text_chunks :=
       split_into_chunks text_content default_max_chunk_size default_overlap in
     print (LogCreated (length text_chunks)) ;;;
     print LogGenerating ;;;
     embeddings <- embed_texts text_chunks ;;
     print LogStoring ;;;
     for_each (enumerate (combine text_chunks embeddings))
       (store_chunk project_id knowledge_id (length text_chunks)) ;;;
     print (LogSuccess file_name) ;;;
     db_update knowledge_id (success_patch (length text_chunks)))
    (fun e =>
       print (LogProcessError e) ;;;
       db_update knowledge_id (failure_patch e) ;;;
       raise e).

(** [get_unprocessed_pdfs()] *)
Definition get_unprocessed_pdfs : M (list KnowledgeRecord) :=
  try_except
    (t <- tick ;;
     match select_fault env t with
     | Some e => raise e
     | None =>
         fun w =>
           (w, Ok (filter (fun r => negb (kr_processed r)) (project_knowledge w)))
     end)
    (fun e => print (LogFetchError e) ;;; ret []).

(** The body of the loop over the unprocessed records. *)
Definition process_record (pdf_record : KnowledgeRecord) : M unit :=
  try_except
    (process_pdf_and_store_embeddings
       (kr_project_id pdf_record) (kr_id pdf_record)
       (kr_file_path pdf_record) (kr_file_name pdf_record))
    (fun e => print (LogFailed (kr_file_name pdf_record) e)).

(** [process_all_unprocessed_pdfs()] *)
Definition process_all_unprocessed_pdfs : M unit :=
  unprocessed_pdfs <- get_unprocessed_pdfs ;;
  print (LogFound (length unprocessed_pdfs)) ;;;
  for_each unprocessed_pdfs process_record.

End Pipeline.

(* ===================================================================== *)
(** ** What the specification says, as predicates *)
(* ===================================================================== *)

(** [sub in s] *)
Fixpoint contains (sub s : list ascii) : bool :=
  Py.startswith sub s
  || match s with
     | [] => false
     | _ :: rest => contains sub rest
     end.

(** The chunk the chunker makes of a run of consecutive sentences. *)
Definition render (group : list (list ascii)) : list ascii :=
  Py.strip (concat (map unit_of group)).

(** A string that does not start with white space. *)
Definition nospace_head (s : list ascii) : Prop :=
  match s with
  | [] => True
  | c :: _ => Py.isspace c = false
  end.

(** A run of sentences the chunker may close as one chunk: one sentence of
    any length, or several that fit in [max_chunk_size] together. *)
Definition fits (max_chunk_size : Z) (group : list (list ascii)) : Prop :=
  (exists s, group = [s])
  \/ (Py.len (concat (map unit_of group)) <= max_chunk_size)%Z.

(** A closed run of sentences: not empty, and one the chunker may close. *)
Definition closed (max_chunk_size : Z) (group : list (list ascii)) : Prop :=
  group <> [] /\ fits max_chunk_size group.

(** The file names of the lines "Processing PDF: ...", oldest first: the
    documents whose processing was started. *)
Fixpoint started (l : list log_entry) : list string :=
  match l with
  | [] => []
  | LogProcessing file_name :: rest => file_name :: started rest
  | _ :: rest => started rest
  end.

Section Predicates.

Context {F : Type} (zero : F) (env : Env F).

(** What one batch adds to the output: the vectors of the service, or one
    placeholder per text when the call raises. *)
Definition batch_result (t : nat) (batch : list (list ascii))
  : list (list F) :=
  match embeddings_create env t batch with
  | Ok vs => vs
  | Raise _ => zero_embeddings zero (length batch)
  end.

(** The interface of the embedding service: a call that returns gives one
    vector per text, each of the configured dimension. *)
Definition service_contract : Prop :=
  forall t batch vs,
    embeddings_create env t batch = Ok vs ->
    length vs = length batch
    /\ Forall (fun v => length v = EMBEDDING_DIM) vs.

(** Two worlds with the same files, tables and time: they differ at most in
    what was printed. *)
Definition same_state (w v : World F) : Prop :=
  files w = files v
  /\ project_knowledge w = project_knowledge v
  /\ project_embeddings w = project_embeddings v
  /\ now w = now v.

(** A computation that does not read what was printed. *)
Definition respects {A} (m : M F A) : Prop :=
  forall w v,
    same_state w v ->
    snd (m w) = snd (m v) /\ same_state (fst (m w)) (fst (m v)).

(** A computation that leaves one view [proj] of the world as it is. *)
Definition preserves {X A} (proj : World F -> X) (m : M F A) : Prop :=
  forall w, proj (fst (m w)) = proj w.

(** Views of the world that do not look at one of its parts. *)
Definition ignores_stdout {X} (proj : World F -> X) : Prop :=
  forall w v,
    files w = files v -> project_knowledge w = project_knowledge v ->
    project_embeddings w = project_embeddings v -> now w = now v ->
    proj w = proj v.

Definition ignores_now {X} (proj : World F -> X) : Prop :=
  forall w v,
    files w = files v -> project_knowledge w = project_knowledge v ->
    project_embeddings w = project_embeddings v -> stdout w = stdout v ->
    proj w = proj v.

Definition ignores_files {X} (proj : World F -> X) : Prop :=
  forall w v,
    project_knowledge w = project_knowledge v ->
    project_embeddings w = project_embeddings v ->
    stdout w = stdout v -> now w = now v ->
    proj w = proj v.

Definition ignores_embeddings {X} (proj : World F -> X) : Prop :=
  forall w v,
    files w = files v -> project_knowledge w = project_knowledge v ->
    stdout w = stdout v -> now w = now v ->
    proj w = proj v.

Definition ignores_knowledge {X} (proj : World F -> X) : Prop :=
  forall w v,
    files w = files v -> project_embeddings w = project_embeddings v ->
    stdout w = stdout v -> now w = now v ->
    proj w = proj v.

(** The documents whose processing was started, in a world. *)
Definition started_in (w : World F) : list string := started (stdout w).

(** A line other than "Processing PDF: ...". *)
Definition not_start (l : log_entry) : Prop :=
  match l with
  | LogProcessing _ => False
  | _ => True
  end.

(** A computation that never raises. *)
Definition total {A} (m : M F A) : Prop :=
  forall w, exists a, snd (m w) = Ok a.

(** The two tables of the datastore. *)
Definition tables (w : World F)
  : list KnowledgeRecord * list (EmbeddingRow F) :=
  (project_knowledge w, project_embeddings w).

(** A step of the fetch of [file_path] from the world [w] fails: the
    download raises or yields nothing, the scratch file cannot be written,
    the PDF cannot be opened, or the text of a page cannot be extracted. *)
Definition fetch_step_fails (file_path : string) (w : World F) : Prop :=
  (exists e, storage_download env (now w) file_path = Raise e)
  \/ storage_download env (now w) file_path = Ok None
  \/ exists data,
       storage_download env (now w) file_path = Ok (Some data)
       /\ ((exists e,
               open_wb_fault env (S (now w)) (temp_path_of file_path) = Some e)
           \/ (exists e, pdfplumber_open env data = Raise e)
           \/ (exists pages e,
                  pdfplumber_open env data = Ok pages /\ In (Raise e) pages)).

(** The loop of [process_all_unprocessed_pdfs], record by record: a record
    whose processing returns leaves its world to the next one; a record
    whose processing raises has the failure printed, and the next one
    goes on from there. *)
Inductive run_records : list KnowledgeRecord -> World F -> World F -> Prop :=
| run_done w : run_records [] w w
| run_ok r rest w w1 w' :
    process_pdf_and_store_embeddings zero env
      (kr_project_id r) (kr_id r) (kr_file_path r) (kr_file_name r) w
    = (w1, Ok tt) ->
    run_records rest w1 w' ->
    run_records (r :: rest) w w'
| run_caught r rest w w1 e w' :
    process_pdf_and_store_embeddings zero env
      (kr_project_id r) (kr_id r) (kr_file_path r) (kr_file_name r) w
    = (w1, Raise e) ->
    run_records rest (fst (print (LogFailed (kr_file_name r) e) w1)) w' ->
    run_records (r :: rest) w w'.

End Predicates.

(* ===================================================================== *)
(** ** A small concrete world *)
(* ===================================================================== *)

(** A bucket with a two-page PDF, a file that is not a PDF and a path with
    no content; an embedding service whose second call is refused; a
    datastore that accepts every call. Vector components are integers. *)
Module Fixture.

Definition good_pdf : list Byte.byte :=
  [Byte.x25; Byte.x50; Byte.x44; Byte.x46].

Definition bad_pdf : list Byte.byte := [Byte.x00; Byte.x01].

Definition pages_of_good_pdf : list page :=
  [Ok (Some (Py.lit "Alpha. Beta.")); Ok None; Ok (Some (Py.lit "Gamma."))].

Definition good_text : list ascii :=
  Py.lit "Alpha. Beta." ++ Py.newline ++ Py.lit "Gamma." ++ Py.newline.

Definition download (t : nat) (path : string)
  : outcome (option (list Byte.byte)) :=
  if String.eqb path "kb/p1/good.pdf" then Ok (Some good_pdf)
  else if String.eqb path "kb/p1/bad.pdf" then Ok (Some bad_pdf)
  else if String.eqb path "kb/p1/missing.pdf" then Ok None
  else Raise "storage unavailable".

Definition parse (data : list Byte.byte) : outcome (list page) :=
  match data with
  | b :: _ =>
      if Byte.eqb b Byte.x25 then Ok pages_of_good_pdf
      else Raise "No /Root object! - Is this really a PDF?"
  | [] => Raise "No /Root object! - Is this really a PDF?"
  end.

Definition unit_vector : list Z := repeat 1%Z EMBEDDING_DIM.

Definition service (t : nat) (batch : list (list ascii))
  : outcome (list (list Z)) :=
  if t =? 1 then Raise "rate limit reached"
  else Ok (map (fun _ => unit_vector) batch).

Definition env : Env Z :=
  {| storage_download := download;
     open_wb_fault := fun _ _ => None;
     pdfplumber_open := parse;
     embeddings_create := service;
     insert_fault := fun _ _ => None;
     update_fault := fun _ _ => None;
     select_fault := fun _ => None |}.

Definition record (id path name : string) (processed : bool)
    (error : option string) : KnowledgeRecord :=
  {| kr_id := id; kr_project_id := "p1"; kr_file_path := path;
     kr_file_name := name; kr_processed := processed;
     kr_processed_at := None; kr_chunks_count := None;
     kr_processing_error := error |}.

Definition r1 : KnowledgeRecord :=
  record "k1" "kb/p1/good.pdf" "good.pdf" false (Some "timed out").
Definition r2 : KnowledgeRecord :=
  record "k2" "kb/p1/missing.pdf" "missing.pdf" false None.
Definition r3 : KnowledgeRecord :=
  record "k3" "kb/p1/bad.pdf" "bad.pdf" false None.
Definition r4 : KnowledgeRecord :=
  record "k4" "kb/p1/good.pdf" "done.pdf" true None.

Definition w0 : World Z :=
  {| files := ∅; project_knowledge := [r1; r2; r3; r4];
     project_embeddings := []; stdout := []; now := 0 |}.

(** 150 texts: two batches. *)
Definition texts150 : list (list ascii) := repeat (Py.lit "text") 150.

(** What is left of a record for inspection: id, flag, chunk count, error. *)
Definition status (r : KnowledgeRecord)
  : string * bool * option nat * option string :=
  (kr_id r, kr_processed r, kr_chunks_count r, kr_processing_error r).

End Fixture.

(* ===================================================================== *)
(** ** Two more concrete services *)
(* ===================================================================== *)

(** An embedding service that refuses every call. *)
Module Outage.

Definition env : Env Z :=
  {| storage_download := Fixture.download;
     open_wb_fault := fun _ _ => None;
     pdfplumber_open := Fixture.parse;
     embeddings_create := fun _ _ => Raise "service unavailable";
     insert_fault := fun _ _ => None;
     update_fault := fun _ _ => None;
     select_fault := fun _ => None |}.

End Outage.

(** An embedding service of another dimension (3 numbers per text) whose
    second call is refused. *)
Module Mismatch.

Definition service (t : nat) (batch : list (list ascii))
  : outcome (list (list Z)) :=
  if t =? 1 then Raise "rate limit reached"
  else Ok (map (fun _ => [1%Z; 2%Z; 3%Z]) batch).

Definition env : Env Z :=
  {| storage_download := Fixture.download;
     open_wb_fault := fun _ _ => None;
     pdfplumber_open := Fixture.parse;
     embeddings_create := service;
     insert_fault := fun _ _ => None;
     update_fault := fun _ _ => None;
     select_fault := fun _ => None |}.

End Mismatch.

(* ===================================================================== *)
(** ** Further predicates on the fetcher *)
(* ===================================================================== *)

(** What one page adds to the text: its text and a line feed, or nothing
    when the page has no text. *)
Definition page_line (p : page) : list ascii :=
  match p with
  | Ok (Some page_text) =>
      if Py.truthy page_text then page_text ++ Py.newline else []
  | _ => []
  end.

(** A page whose extraction returns. *)
Definition page_ok (p : page) : Prop :=
  match p with
  | Ok _ => True
  | Raise _ => False
  end.

(* ===================================================================== *)
(** ** Further predicates on the orchestrator *)
(* ===================================================================== *)

Section MorePredicates.

Context {F : Type}.

(** The columns that identify a knowledge record, row by row. *)
Definition identity_columns (w : World F)
  : list (string * string * string * string) :=
  map (fun r => (kr_id r, kr_project_id r, kr_file_path r, kr_file_name r))
      (project_knowledge w).

(** The knowledge records whose id is not in [ids], each at its place. *)
Definition others (ids : list string) (w : World F)
  : list (option KnowledgeRecord) :=
  map (fun r => if existsb (String.eqb (kr_id r)) ids then None else Some r)
      (project_knowledge w).

(** What a row of [project_embeddings] holds, the time of its creation
    apart. *)
Definition row_key (r : EmbeddingRow F)
  : string * string * list ascii * list F * nat :=
  (er_project_id r, er_knowledge_id r, er_content_chunk r, er_embedding r,
   er_chunk_index r).

(** The row the orchestrator inserts for the [i]-th pair of a chunk and its
    vector. *)
Definition key_of_item (project_id knowledge_id : string)
    (item : nat * (list ascii * list F))
  : string * string * list ascii * list F * nat :=
  (project_id, knowledge_id, fst (snd item), snd (snd item), fst item).

(** The table [project_embeddings] only grew, by rows that satisfy [P]. *)
Definition grown (P : EmbeddingRow F -> Prop) (w w' : World F) : Prop :=
  exists rows,
    project_embeddings w' = project_embeddings w ++ rows /\ Forall P rows.

(** A computation after which [project_embeddings] only grew, by rows that
    satisfy [P]. *)
Definition grows {A} (P : EmbeddingRow F -> Prop) (m : M F A) : Prop :=
  forall w, grown P w (fst (m w)).


End MorePredicates.

(* ===================================================================== *)
(** ** Further predicates on the chunker *)
(* ===================================================================== *)

(** Runs of sentences packed greedily: the first sentence of every run did
    not fit behind the accumulator of the run before it. *)
Fixpoint tight (max_chunk_size : Z) (groups : list (list (list ascii)))
  : Prop :=
  match groups with
  | [] => True
  | g :: rest =>
      match rest with
      | (s :: _) :: _ =>
          (Py.len (concat (map unit_of g)) + Py.len (unit_of s)
           > max_chunk_size)%Z
      | _ => True
      end
      /\ tight max_chunk_size rest
  end.

(** The run that is still open, as a list of at most one run. *)
Definition opened (g : list (list ascii)) : list (list (list ascii)) :=
  match g with
  | [] => []
  | _ :: _ => [g]
  end.

(* ===================================================================== *)
(** ** Properties of the chunker *)
(* ===================================================================== *)

Example split_ex1 :
  Py.split (Py.lit "Alpha. Beta.. Gamma. ") sep
  = [Py.lit "Alpha"; Py.lit "Beta."; Py.lit "Gamma"; []].
Proof. reflexivity. Qed.

Example split_ex2 : Py.split ([]) sep = [[]].
Proof. reflexivity. Qed.

Example strip_ex1 :
  Py.strip (Py.lit "   two words  ") = Py.lit "two words".
Proof. reflexivity. Qed.

Example chunks_ex1 :
  split_into_chunks (Py.lit "Alpha. Beta. Gamma") 14 200
  = [Py.lit "Alpha. Beta."; Py.lit "Gamma."].
Proof. vm_compute. reflexivity. Qed.

Example basename_ex1 :
  basename "project-knowledge/p1/spec/file.pdf" = "file.pdf"%string.
Proof. reflexivity. Qed.

Section StripFacts.

Lemma lstrip_nospace s : nospace_head s -> Py.lstrip s = s.
Proof.
  destruct s as [|c s]; simpl; [reflexivity|].
  intros ->. reflexivity.
Qed.

Lemma lstrip_head s : nospace_head (Py.lstrip s).
Proof.
  induction s as [|c s IH]; simpl; [exact I|].
  destruct (Py.isspace c) eqn:E; [exact IH|]. simpl. exact E.
Qed.

Lemma lstrip_app_nonspace a c b :
  Py.isspace c = false -> Py.lstrip (a ++ c :: b) = Py.lstrip a ++ c :: b.
Proof.
  intros Hc. induction a as [|x a IH]; simpl.
  - rewrite Hc. reflexivity.
  - destruct (Py.isspace x); [exact IH | reflexivity].
Qed.

Lemma rstrip_cons_nonspace c s :
  Py.isspace c = false -> Py.rstrip (c :: s) = c :: Py.rstrip s.
Proof.
  intros Hc. unfold Py.rstrip.
  change (rev (c :: s)) with (rev s ++ [c]).
  rewrite (lstrip_app_nonspace _ c []) by exact Hc.
  rewrite rev_app_distr. reflexivity.
Qed.

Lemma strip_head s : nospace_head (Py.strip s).
Proof.
  unfold Py.strip. pose proof (lstrip_head s) as H.
  destruct (Py.lstrip s) as [|c t]; [exact I|].
  simpl in H. rewrite rstrip_cons_nonspace by exact H. exact H.
Qed.

Lemma rstrip_sep b : Py.rstrip (b ++ sep) = b ++ Py.lit ".".
Proof.
  unfold Py.rstrip, sep. rewrite rev_app_distr.
  change (rev (Py.lit ". ")) with [" "%char; "."%char].
  change (Py.lstrip ([" "%char; "."%char] ++ rev b)) with ("."%char :: rev b).
  simpl. rewrite rev_involutive. reflexivity.
Qed.

(** What ends in [". "] and does not start with white space is trimmed to
    the same text without its last blank. *)
Lemma strip_sep b :
  nospace_head (b ++ sep) -> Py.strip (b ++ sep) = b ++ Py.lit ".".
Proof.
  intros H. unfold Py.strip. rewrite lstrip_nospace by exact H.
  apply rstrip_sep.
Qed.

Lemma unit_of_head s : nospace_head (unit_of s).
Proof.
  unfold unit_of. pose proof (strip_head s) as H.
  destruct (Py.strip s); simpl; [reflexivity | exact H].
Qed.

Lemma unit_of_nonempty s : unit_of s <> [].
Proof. unfold unit_of, sep. destruct (Py.strip s); discriminate. Qed.

(** The accumulator of a non-empty run of sentences ends in [". "] and is
    trimmed to itself without the last blank. *)
Lemma render_units group :
  group <> [] ->
  exists b, concat (map unit_of group) = b ++ sep
            /\ render group = b ++ Py.lit ".".
Proof.
  intros Hne.
  assert (Hend : exists b, concat (map unit_of group) = b ++ sep).
  { induction group as [|s g IH]; [congruence|].
    destruct g as [|s' g'].
    - exists (Py.strip s). simpl. rewrite app_nil_r. reflexivity.
    - destruct IH as [b Hb]; [discriminate|].
      exists (unit_of s ++ b). change (concat (map unit_of (s :: s' :: g')))
        with (unit_of s ++ concat (map unit_of (s' :: g'))).
      rewrite Hb. rewrite <- app_assoc. reflexivity. }
  destruct Hend as [b Hb]. exists b. split; [exact Hb|].
  unfold render. rewrite Hb. apply strip_sep. rewrite <- Hb.
  destruct group as [|s g]; [congruence|]. simpl.
  pose proof (unit_of_head s) as Hh. pose proof (unit_of_nonempty s) as Hn.
  destruct (unit_of s); [congruence | exact Hh].
Qed.

Lemma render_one s : render [s] = Py.strip s ++ Py.lit ".".
Proof.
  unfold render. simpl. rewrite app_nil_r. unfold unit_of.
  apply strip_sep. apply (unit_of_head s).
Qed.

Lemma strip_nil : Py.strip [] = [].
Proof. reflexivity. Qed.

End StripFacts.

Section SplitFacts.

Variable d : list ascii.

Lemma split_from_nonempty s : forall k, Py.split_from d s k <> [].
Proof.
  induction s as [|c s IH]; intros k; [discriminate|].
  destruct k as [|k]; [|apply IH].
  change (Py.split_from d (c :: s) 0)
    with (if Py.startswith d (c :: s)
          then [] :: Py.split_from d s (length d - 1)
          else Py.push c (Py.split_from d s 0)).
  destruct (Py.startswith d (c :: s)); [discriminate|].
  destruct (Py.split_from d s 0); discriminate.
Qed.

Lemma join_push c pieces :
  pieces <> [] -> Py.join d (Py.push c pieces) = c :: Py.join d pieces.
Proof.
  destruct pieces as [|p [|q rest]]; [congruence | reflexivity..].
Qed.

Lemma join_cons_nil pieces :
  pieces <> [] -> Py.join d ([] :: pieces) = d ++ Py.join d pieces.
Proof. destruct pieces; [congruence | reflexivity]. Qed.

Lemma startswith_prefix p s :
  Py.startswith p s = true -> s = p ++ skipn (length p) s.
Proof.
  revert s. induction p as [|a p IH]; intros s H; [reflexivity|].
  destruct s as [|b s]; [discriminate|].
  cbn [Py.startswith] in H. apply andb_true_iff in H. destruct H as [Hab Hp].
  apply Ascii.eqb_eq in Hab. subst b.
  cbn [length skipn app]. f_equal. apply IH. exact Hp.
Qed.

(** Joining the pieces of a split with the separator gives the text back:
    the split loses no character. *)
Lemma join_split_from s :
  d <> [] ->
  forall k, k <= length s -> Py.join d (Py.split_from d s k) = skipn k s.
Proof.
  intros Hsep. induction s as [|c s IH]; intros k Hk.
  - destruct k; [reflexivity | simpl in Hk; lia].
  - destruct k as [|k].
    + change (Py.split_from d (c :: s) 0)
        with (if Py.startswith d (c :: s)
              then [] :: Py.split_from d s (length d - 1)
              else Py.push c (Py.split_from d s 0)).
      destruct (Py.startswith d (c :: s)) eqn:E.
      * pose proof (startswith_prefix _ _ E) as Hp.
        assert (Hlen : length d <= length (c :: s)).
        { pose proof (f_equal (@length ascii) Hp) as Hl0.
          rewrite length_app in Hl0. lia. }
        destruct d as [|a d'] eqn:Es; [congruence|]. rewrite <- Es in *.
        assert (Hl : length d = S (length d')) by (rewrite Es; reflexivity).
        rewrite join_cons_nil by apply split_from_nonempty.
        rewrite IH by (simpl in Hlen; lia).
        rewrite skipn_O, Hp at 1. rewrite Hl. cbn [skipn Nat.sub].
        rewrite Nat.sub_0_r. reflexivity.
      * rewrite join_push by apply split_from_nonempty.
        rewrite IH by lia. reflexivity.
    + cbn [Py.split_from skipn]. apply IH. simpl in Hk. lia.
Qed.

Lemma join_split s : d <> [] -> Py.join d (Py.split s d) = s.
Proof. intros H. apply (join_split_from s H 0). lia. Qed.

End SplitFacts.

Section ChunkLoop.

Variable max_chunk_size : Z.

Local Abbreviation closed := (closed max_chunk_size).

Lemma flush_nil chunks : flush chunks [] = chunks.
Proof. reflexivity. Qed.

Lemma flush_group groups g :
  g <> [] ->
  flush (map render groups) (concat (map unit_of g))
  = map render (groups ++ [g]).
Proof.
  intros Hg. destruct (render_units g Hg) as (b & _ & Hr).
  unfold flush. fold (render g).
  assert (Ht : Py.truthy (render g) = true).
  { rewrite Hr. destruct b; reflexivity. }
  rewrite Ht, map_app. reflexivity.
Qed.

Lemma len_app a b : Py.len (a ++ b) = (Py.len a + Py.len b)%Z.
Proof. unfold Py.len. rewrite length_app. lia. Qed.

Lemma chunk_loop_cons s rest st :
  chunk_loop max_chunk_size (s :: rest) st
  = chunk_loop max_chunk_size rest (chunk_step max_chunk_size st s).
Proof. reflexivity. Qed.

Lemma chunk_step_eq chunks current_chunk s :
  chunk_step max_chunk_size (chunks, current_chunk) s
  = if (Py.len current_chunk + Py.len (unit_of s) >? max_chunk_size)%Z
    then (flush chunks current_chunk, unit_of s)
    else (chunks, current_chunk ++ unit_of s).
Proof. reflexivity. Qed.

(** The state of the loop is always: the chunks of the closed runs, and the
    accumulator of the run that is still open. *)
Lemma chunk_loop_groups sentences :
  forall groups g,
    Forall closed groups ->
    g = [] \/ fits max_chunk_size g ->
    exists groups' g',
      chunk_loop max_chunk_size sentences
        (map render groups, concat (map unit_of g))
      = (map render groups', concat (map unit_of g'))
      /\ concat groups' ++ g' = concat groups ++ g ++ sentences
      /\ Forall closed groups'
      /\ (g' = [] \/ fits max_chunk_size g')
      /\ (g ++ sentences <> [] -> g' <> []).
Proof.
  induction sentences as [|s rest IH]; intros groups g Hgs Hg.
  - exists groups, g. rewrite app_nil_r. repeat split; auto.
  - rewrite chunk_loop_cons, chunk_step_eq.
    destruct (Py.len (concat (map unit_of g)) + Py.len (unit_of s)
              >? max_chunk_size)%Z eqn:Hcmp.
    + (* the sentence does not fit: close the open run *)
      assert (Hone : unit_of s = concat (map unit_of [s])).
      { simpl. rewrite app_nil_r. reflexivity. }
      destruct g as [|s0 g0].
      * simpl concat. rewrite flush_nil, Hone.
        destruct (IH groups [s] Hgs) as (gs' & g' & He & Hc & Hf & Ho & Hn).
        { right. left. eauto. }
        exists gs', g'.
        split; [exact He|]. split; [exact Hc|]. split; [exact Hf|].
        split; [exact Ho|]. intros _. apply Hn. discriminate.
      * rewrite flush_group by discriminate. rewrite Hone.
        destruct (IH (groups ++ [s0 :: g0]) [s])
          as (gs' & g' & He & Hc & Hf & Ho & Hn).
        { apply Forall_app. split; [exact Hgs|].
          constructor; [|constructor]. split; [discriminate|].
          destruct Hg as [Hg|Hg]; [discriminate | exact Hg]. }
        { right. left. eauto. }
        exists gs', g'.
        split; [exact He|]. split.
        { rewrite Hc, concat_app. simpl. rewrite app_nil_r, <- !app_assoc.
          reflexivity. }
        split; [exact Hf|]. split; [exact Ho|].
        intros _. apply Hn. discriminate.
    + (* the sentence fits: it joins the open run *)
      assert (Hjoin : concat (map unit_of g) ++ unit_of s
                      = concat (map unit_of (g ++ [s]))).
      { rewrite map_app, concat_app. simpl. rewrite app_nil_r. reflexivity. }
      rewrite Hjoin.
      destruct (IH groups (g ++ [s]) Hgs) as (gs' & g' & He & Hc & Hf & Ho & Hn).
      { right. right. rewrite <- Hjoin, len_app. lia. }
      exists gs', g'.
      split; [exact He|]. split.
      { rewrite Hc, <- !app_assoc. reflexivity. }
      split; [exact Hf|]. split; [exact Ho|].
      intros _. apply Hn. destruct g; discriminate.
Qed.

(** The chunks are the renderings of consecutive, non-empty runs of the
    sentences of the text, each run one the chunker may close. *)
Lemma chunks_decomposition text overlap :
  exists groups,
    concat groups = Py.split text sep
    /\ Forall closed groups
    /\ split_into_chunks text max_chunk_size overlap = map render groups.
Proof.
  unfold split_into_chunks.
  destruct (chunk_loop_groups (Py.split text sep) [] [])
    as (gs & g & He & Hc & Hf & Ho & _); [constructor | left; reflexivity |].
  simpl in He, Hc. rewrite He.
  destruct g as [|s0 g0].
  - exists gs. rewrite app_nil_r in Hc. simpl. rewrite flush_nil. auto.
  - exists (gs ++ [s0 :: g0]). rewrite flush_group by discriminate.
    repeat split.
    + rewrite concat_app. simpl. rewrite app_nil_r. exact Hc.
    + apply Forall_app. split; [exact Hf|]. constructor; [|constructor].
      split; [discriminate|]. destruct Ho as [Ho|Ho]; [discriminate|exact Ho].
Qed.

End ChunkLoop.

Section ChunkerClaims.

Lemma split_no_sep s : contains sep s = false -> Py.split s sep = [s].
Proof.
  unfold Py.split. induction s as [|c s IH]; intros H; [reflexivity|].
  change (contains sep (c :: s))
    with (Py.startswith sep (c :: s) || contains sep s) in H.
  apply orb_false_iff in H. destruct H as [Hstart Hrest].
  change (Py.split_from sep (c :: s) 0)
    with (if Py.startswith sep (c :: s)
          then [] :: Py.split_from sep s (length sep - 1)
          else Py.push c (Py.split_from sep s 0)).
  rewrite Hstart, IH by exact Hrest. reflexivity.
Qed.

Lemma rstrip_dot b : Py.rstrip (b ++ Py.lit ".") = b ++ Py.lit ".".
Proof.
  unfold Py.rstrip. rewrite rev_app_distr.
  change (rev (Py.lit ".")) with ["."%char].
  change (Py.lstrip (["."%char] ++ rev b)) with ("."%char :: rev b).
  simpl. rewrite rev_involutive. reflexivity.
Qed.

Lemma concat_units_groups groups :
  Forall (fun g : list (list ascii) => g <> []) groups ->
  concat (map (fun c => c ++ Py.lit " ") (map render groups))
  = concat (map unit_of (concat groups)).
Proof.
  induction 1 as [|g gs Hg _ IH]; [reflexivity|].
  cbn [map concat]. rewrite map_app, concat_app, IH. f_equal.
  destruct (render_units g Hg) as (b & Hb & Hr).
  rewrite Hr, Hb, <- app_assoc. reflexivity.
Qed.

Lemma closed_nonempty max_chunk_size groups :
  Forall (closed max_chunk_size) groups ->
  Forall (fun g : list (list ascii) => g <> []) groups.
Proof. apply List.Forall_impl. intros g [H _]. exact H. Qed.

(** C2 (as stated) fails: the chunker returns the chunk ["."] for the empty
    text, and the chunk of a text without separator carries an added period,
    so it is not the trimmed text. *)
Lemma chunk_boundary_counterexample :
  split_into_chunks ([]) default_max_chunk_size default_overlap <> []
  /\ contains sep (Py.lit "short text") = false
  /\ split_into_chunks (Py.lit "short text") default_max_chunk_size
       default_overlap
     <> [Py.strip (Py.lit "short text")].
Proof.
  split; [|split].
  - vm_compute. discriminate.
  - reflexivity.
  - vm_compute. intros H. discriminate H.
Qed.

(** C2 (amended): for every text with no occurrence of the separator [". "]
    (the empty text is one), and every size limit, the chunker returns
    exactly one chunk: the trimmed text followed by a period. *)
Theorem chunk_without_separator text max_chunk_size overlap :
  contains sep text = false ->
  split_into_chunks text max_chunk_size overlap
  = [Py.strip text ++ Py.lit "."].
Proof.
  intros H. unfold split_into_chunks. rewrite (split_no_sep text H).
  rewrite chunk_loop_cons, chunk_step_eq.
  assert (Hf : flush [] (unit_of text) = [Py.strip text ++ Py.lit "."]).
  { pose proof (flush_group [] [text]) as Hg. simpl in Hg.
    rewrite app_nil_r in Hg. rewrite Hg by discriminate.
    rewrite render_one. reflexivity. }
  destruct (Py.len [] + Py.len (unit_of text) >? max_chunk_size)%Z;
    simpl; exact Hf.
Qed.

Lemma chunk_without_separator_witness :
  split_into_chunks ([]) 1000 200 = [Py.lit "."]
  /\ split_into_chunks (Py.lit "short text") 1000 200
     = [Py.lit "short text."].
Proof.
  split.
  - apply (chunk_without_separator ([]) 1000 200). reflexivity.
  - apply (chunk_without_separator (Py.lit "short text") 1000 200).
    reflexivity.
Defined.

Lemma concat_with_sep (d : list ascii) (l : list (list ascii)) :
  l <> [] -> concat (map (fun x => x ++ d) l) = Py.join d l ++ d.
Proof.
  induction l as [|x l IH]; intros Hl; [congruence|].
  destruct l as [|y l].
  - simpl. rewrite app_nil_r. reflexivity.
  - change (concat (map (fun x => x ++ d) (x :: y :: l)))
      with ((x ++ d) ++ concat (map (fun x => x ++ d) (y :: l))).
    rewrite IH by discriminate.
    change (Py.join d (x :: y :: l)) with (x ++ d ++ Py.join d (y :: l)).
    rewrite <- !app_assoc. reflexivity.
Qed.

(** The accumulator of a run: its sentences, each trimmed, joined with the
    separator and followed by one more separator. *)
Lemma units_join g :
  g <> [] ->
  concat (map unit_of g)
  = Py.join (Py.lit ". ") (map Py.strip g) ++ Py.lit ". ".
Proof.
  intros Hg.
  rewrite <- concat_with_sep by (destruct g; [congruence | discriminate]).
  rewrite map_map. reflexivity.
Qed.

(** The chunk of a run: its sentences, each trimmed, joined with the
    separator and closed by a period. *)
Lemma render_join g :
  g <> [] ->
  render g = Py.join (Py.lit ". ") (map Py.strip g) ++ Py.lit ".".
Proof.
  intros Hg. destruct (render_units g Hg) as (b & Hb & Hr).
  rewrite Hr. f_equal. rewrite (units_join g Hg) in Hb.
  apply (app_inv_tail (Py.lit ". ")). symmetry. exact Hb.
Qed.

(** C4 (as stated) fails: for the text ["Alpha. Beta"] the one chunk is
    ["Alpha. Beta."]; it is not the two trimmed sentences joined again, and
    split again on [". "] it gives ["Alpha"] and ["Beta."], not the sentence
    ["Beta"] of the text: the chunker has added a period. *)
Lemma chunks_rejoin_counterexample :
  let text := Py.lit "Alpha. Beta" in
  let chunks :=
    split_into_chunks text default_max_chunk_size default_overlap in
  chunks = [Py.lit "Alpha. Beta."]
  /\ map Py.strip (Py.split text (Py.lit ". "))
     = [Py.lit "Alpha"; Py.lit "Beta"]
  /\ Py.join (Py.lit " ") chunks
     <> Py.join (Py.lit ". ") (map Py.strip (Py.split text (Py.lit ". ")))
  /\ Py.split (Py.join (Py.lit " ") chunks) (Py.lit ". ")
     <> map Py.strip (Py.split text (Py.lit ". ")).
Proof.
  cbv zeta. split; [|split; [|split]].
  - vm_compute. reflexivity.
  - vm_compute. reflexivity.
  - vm_compute. intros H. discriminate H.
  - vm_compute. intros H. discriminate H.
Qed.

(** C4 (amended): for every text and size limit, the chunks joined with
    single blanks are the sentences of the text (the pieces of the split on
    [". "]), each trimmed, joined with [". "], followed by one added period:
    no sentence is dropped, duplicated or moved. Each chunk is a run of
    consecutive sentences, trimmed, joined with [". "] and closed by a
    period, and the runs taken together are the sentence sequence. *)
Theorem chunks_rejoin_sentences text max_chunk_size overlap :
  Py.join (Py.lit " ") (split_into_chunks text max_chunk_size overlap)
  = Py.join (Py.lit ". ") (map Py.strip (Py.split text (Py.lit ". ")))
    ++ Py.lit "."
  /\ exists groups,
       concat groups = Py.split text (Py.lit ". ")
       /\ Forall (fun g : list (list ascii) => g <> []) groups
       /\ split_into_chunks text max_chunk_size overlap
          = map (fun g => Py.join (Py.lit ". ") (map Py.strip g)
                          ++ Py.lit ".")
                groups.
Proof.
  change (Py.split text (Py.lit ". ")) with (Py.split text sep).
  destruct (chunks_decomposition max_chunk_size text overlap)
    as (groups & Hc & Hf & He).
  apply closed_nonempty in Hf.
  assert (Hs : Py.split text sep <> []) by apply split_from_nonempty.
  assert (Hg : groups <> []).
  { intros ->. simpl in Hc. congruence. }
  split.
  - apply (app_inv_tail (Py.lit " ")).
    rewrite <- concat_with_sep
      by (rewrite He; destruct groups; [congruence | discriminate]).
    rewrite He, concat_units_groups by exact Hf.
    rewrite Hc, (units_join _ Hs), <- app_assoc. reflexivity.
  - exists groups. split; [exact Hc|]. split; [exact Hf|].
    rewrite He. apply map_ext_in. intros g Hin. apply render_join.
    exact (proj1 (List.Forall_forall _ _) Hf g Hin).
Qed.

(** C5 (as stated) fails: under the limit 3 the text ["abc"] is one
    sentence of 3 characters, which does not exceed the limit, and its chunk
    ["abc."] has 4 characters. *)
Lemma chunk_length_counterexample :
  let text := Py.lit "abc" in
  let chunks := split_into_chunks text 3 default_overlap in
  chunks = [Py.lit "abc."]
  /\ Py.split text (Py.lit ". ") = [Py.lit "abc"]
  /\ ~ Forall
         (fun c =>
            (Py.len c <= 3)%Z
            \/ exists s, In s (Py.split text (Py.lit ". "))
                         /\ (3 < Py.len s)%Z)
         chunks.
Proof.
  cbv zeta.
  assert (Hc : split_into_chunks (Py.lit "abc") 3 default_overlap
               = [Py.lit "abc."]) by (vm_compute; reflexivity).
  assert (Hs : Py.split (Py.lit "abc") (Py.lit ". ") = [Py.lit "abc"])
    by reflexivity.
  split; [exact Hc|]. split; [exact Hs|].
  rewrite Hc, Hs. intros H. apply List.Forall_inv in H.
  destruct H as [Hlen | (s & [<-|[]] & Hlong)].
  - vm_compute in Hlen. apply Hlen. reflexivity.
  - vm_compute in Hlong. discriminate Hlong.
Qed.

(** C5 (amended): for every text and every size limit, each chunk has
    length at most the limit, unless the chunk consists of exactly one
    sentence of the text, trimmed and closed by a period, whose trimmed
    length is at least the limit (so that, with the period, it exceeds
    it). *)
Theorem chunk_length_limit text max_chunk_size overlap :
  Forall
    (fun c =>
       (Py.len c <= max_chunk_size)%Z
       \/ exists s, In s (Py.split text (Py.lit ". "))
                    /\ c = Py.strip s ++ Py.lit "."
                    /\ (max_chunk_size <= Py.len (Py.strip s))%Z)
    (split_into_chunks text max_chunk_size overlap).
Proof.
  change (Py.split text (Py.lit ". ")) with (Py.split text sep).
  destruct (chunks_decomposition max_chunk_size text overlap)
    as (groups & Hc & Hf & He).
  rewrite He. apply List.Forall_map. rewrite <- Hc.
  apply List.Forall_forall. intros g Hin.
  pose proof (proj1 (List.Forall_forall _ _) Hf g Hin) as [Hne [[s ->]|Hfit]].
  - rewrite render_one.
    destruct (Z_le_gt_dec (Py.len (Py.strip s ++ Py.lit ".")) max_chunk_size)
      as [Hle|Hgt].
    + left. exact Hle.
    + right. exists s. split.
      * apply List.in_concat. exists [s]. split; [exact Hin | left; reflexivity].
      * split; [reflexivity|]. rewrite len_app in Hgt.
        change (Py.len (Py.lit ".")) with 1%Z in Hgt. lia.
  - left. destruct (render_units g Hne) as (b & Hb & Hr).
    rewrite Hr. rewrite Hb in Hfit. rewrite len_app in *.
    change (Py.len sep) with 2%Z in Hfit.
    change (Py.len (Py.lit ".")) with 1%Z. lia.
Qed.

(** C10: for every text (the empty one and those without a period too) and
    every size limit, each chunk is non-empty after trimming and ends with
    the character ['.']. *)
Theorem chunks_end_with_period text max_chunk_size overlap :
  Forall
    (fun c => Py.strip c <> [] /\ exists b, c = b ++ Py.lit ".")
    (split_into_chunks text max_chunk_size overlap).
Proof.
  destruct (chunks_decomposition max_chunk_size text overlap)
    as (groups & Hc & Hf & He).
  rewrite He. apply List.Forall_map. revert Hf. apply List.Forall_impl.
  intros g [Hne _]. destruct (render_units g Hne) as (b & Hb & Hr).
  split; [|exists b; exact Hr].
  assert (Hh : nospace_head (render g)) by apply strip_head.
  unfold Py.strip at 1. rewrite lstrip_nospace by exact Hh.
  rewrite Hr, rstrip_dot. destruct b; discriminate.
Qed.

End ChunkerClaims.

(* ===================================================================== *)
(** ** Properties of the embedding client *)
(* ===================================================================== *)

Section ListFacts.

Context {A : Type}.

Lemma firstn_add (a b : nat) (l : list A) :
  firstn (a + b) l = firstn a l ++ firstn b (skipn a l).
Proof.
  revert l. induction a as [|a IH]; intros l; [reflexivity|].
  destruct l as [|x l]; simpl.
  - destruct b; reflexivity.
  - rewrite IH. reflexivity.
Qed.

Lemma slice_length (l : list A) (k n : nat) :
  length (slice l (k * n) (k * n + n)) = Nat.min n (length l - k * n).
Proof.
  unfold slice. rewrite length_firstn, length_skipn.
  replace (k * n + n - k * n) with n by lia. reflexivity.
Qed.

(** The slices of width [n] taken one after the other are a prefix. *)
Lemma concat_slices (l : list A) (n m : nat) :
  concat (map (fun i => slice l i (i + n)) (map (fun k => k * n) (seq 0 m)))
  = firstn (m * n) l.
Proof.
  induction m as [|m IH]; [reflexivity|].
  rewrite seq_S, !map_app, concat_app, IH. simpl.
  rewrite app_nil_r. unfold slice.
  replace (m * n + n - m * n) with n by lia.
  replace (n + m * n) with (m * n + n) by lia.
  rewrite firstn_add. reflexivity.
Qed.

Lemma concat_uniform_length (f : nat -> list A) (n a m : nat) :
  (forall j, a <= j < a + m -> length (f j) = n) ->
  length (concat (map f (seq a m))) = m * n.
Proof.
  revert a. induction m as [|m IH]; intros a H; [reflexivity|].
  simpl. rewrite length_app, IH, H by (intros; apply H; lia) || lia. lia.
Qed.

(** In a concatenation of blocks of width [n] (the last one may be
    shorter), the [k]-th slice of width [n] is the [k]-th block. *)
Lemma slice_concat_blocks (f : nat -> list A) (n nb k : nat) :
  (forall j, j < k -> length (f j) = n) ->
  k < nb ->
  length (f k) = n \/ (length (f k) <= n /\ nb = S k) ->
  slice (concat (map f (seq 0 nb))) (k * n) (k * n + n) = f k.
Proof.
  intros Hfull Hk Hlast.
  replace nb with (k + S (nb - S k)) by lia.
  rewrite seq_app, map_app, concat_app. unfold slice.
  replace (k * n + n - k * n) with n by lia.
  assert (Hlen : length (concat (map f (seq 0 k))) = k * n).
  { apply concat_uniform_length. intros j Hj. apply Hfull. lia. }
  rewrite skipn_app, Hlen, Nat.sub_diag, skipn_all2 by lia.
  simpl. rewrite skipn_O. destruct Hlast as [Hl|[Hl ->]].
  - rewrite firstn_app, Hl, Nat.sub_diag, firstn_all2 by lia.
    rewrite firstn_O. apply app_nil_r.
  - rewrite Nat.sub_diag. simpl. rewrite app_nil_r.
    apply firstn_all2. exact Hl.
Qed.

End ListFacts.

Section MonadSteps.

Context {F : Type}.

Lemma bind_ok {A B} (m : M F A) (k : A -> M F B) w w' a :
  m w = (w', Ok a) -> bind m k w = k a w'.
Proof. unfold bind. intros ->. reflexivity. Qed.

Lemma bind_raise {A B} (m : M F A) (k : A -> M F B) w w' e :
  m w = (w', Raise e) -> bind m k w = (w', Raise e).
Proof. unfold bind. intros ->. reflexivity. Qed.

Lemma try_ok {A} (m : M F A) (h : exn -> M F A) w w' a :
  m w = (w', Ok a) -> try_except m h w = (w', Ok a).
Proof. unfold try_except. intros ->. reflexivity. Qed.

Lemma try_raise {A} (m : M F A) (h : exn -> M F A) w w' e :
  m w = (w', Raise e) -> try_except m h w = h e w'.
Proof. unfold try_except. intros ->. reflexivity. Qed.

End MonadSteps.

Section EmbeddingClient.

Context {F : Type} (zero : F) (env : Env F).

Local Abbreviation batch_of texts k :=
  (slice texts (k * BATCH) (k * BATCH + BATCH)).

(** One turn of the loop: the call is made at the current time, its vectors
    (or the placeholders) are appended, and nothing is raised. *)
Lemma embed_batch_run texts i embeddings w :
  exists w',
    embed_batch zero env texts i embeddings w
    = (w', Ok (embeddings
               ++ batch_result zero env (now w) (slice texts i (i + BATCH))))
    /\ now w' = S (now w)
    /\ files w' = files w
    /\ project_knowledge w' = project_knowledge w
    /\ project_embeddings w' = project_embeddings w.
Proof.
  unfold embed_batch, batch_result, try_except, bind, tick, lift, print, ret.
  simpl.
  destruct (embeddings_create env (now w) (slice texts i (i + BATCH)));
    simpl; eexists; repeat split.
Qed.

Lemma embed_loop_run texts n :
  forall a embeddings w,
  exists w',
    embed_loop zero env texts (map (fun k => k * BATCH) (seq a n)) embeddings w
    = (w', Ok (embeddings
               ++ concat (map (fun j => batch_result zero env (now w + j)
                                          (batch_of texts (a + j)))
                              (seq 0 n))))
    /\ now w' = now w + n
    /\ files w' = files w
    /\ project_knowledge w' = project_knowledge w
    /\ project_embeddings w' = project_embeddings w.
Proof.
  induction n as [|n IH]; intros a embeddings w.
  - exists w. simpl. unfold ret. rewrite app_nil_r.
    split; [reflexivity|]. split; [lia|]. repeat split.
  - destruct (embed_batch_run texts (a * BATCH) embeddings w)
      as (w1 & He & Hn & Hf & Hk & Hp).
    destruct (IH (S a)
                (embeddings ++ batch_result zero env (now w)
                                 (batch_of texts a)) w1)
      as (w2 & He2 & Hn2 & Hf2 & Hk2 & Hp2).
    exists w2. cbn [seq map embed_loop].
    rewrite (bind_ok _ _ _ _ _ He), He2.
    repeat split; try congruence; [|lia].
    do 2 f_equal. rewrite <- app_assoc. f_equal.
    cbn [concat]. rewrite !Nat.add_0_r. f_equal.
    rewrite <- seq_shift, map_map. f_equal.
    apply map_ext. intros j. rewrite Hn.
    replace (S a + j) with (a + S j) by lia.
    replace (S (now w) + j) with (now w + S j) by lia. reflexivity.
Qed.

Lemma batch_result_length t batch :
  service_contract env ->
  length (batch_result zero env t batch) = length batch.
Proof.
  intros Hc. unfold batch_result.
  destruct (embeddings_create env t batch) as [vs|e] eqn:E.
  - apply (Hc t batch vs E).
  - apply repeat_length.
Qed.

Lemma batch_result_dim t batch :
  service_contract env ->
  Forall (fun v => length v = EMBEDDING_DIM) (batch_result zero env t batch).
Proof.
  intros Hc. unfold batch_result.
  destruct (embeddings_create env t batch) as [vs|e] eqn:E.
  - apply (Hc t batch vs E).
  - apply List.Forall_forall. intros v Hv. apply repeat_spec in Hv.
    subst v. apply repeat_length.
Qed.

Lemma np_array_rectangular d (rows : list (list F)) :
  Forall (fun v => length v = d) rows -> np_array rows = Ok rows.
Proof.
  intros H. destruct rows as [|r rows]; [reflexivity|].
  unfold np_array.
  assert (Hall : forallb (fun r' => length r' =? length r) (r :: rows) = true).
  { apply forallb_forall. intros v Hv.
    pose proof (proj1 (List.Forall_forall _ _) H) as Hd.
    rewrite (Hd v Hv), (Hd r (or_introl eq_refl)). apply Nat.eqb_refl. }
  rewrite Hall. reflexivity.
Qed.

Lemma batches_count n :
  (n + (BATCH - 1)) / BATCH * BATCH >= n
  /\ forall k, k * BATCH < n -> k < (n + (BATCH - 1)) / BATCH.
Proof.
  unfold BATCH. change (100 - 1) with 99.
  pose proof (Nat.div_mod_eq (n + 99) 100) as Hd.
  pose proof (Nat.mod_upper_bound (n + 99) 100) as Hm.
  split; [lia|]. intros k Hk. lia.
Qed.

End EmbeddingClient.

Section EmbeddingClaims.

Context {F : Type} (zero : F) (env : Env F).

Local Abbreviation batch_of texts k :=
  (slice texts (k * BATCH) (k * BATCH + BATCH)).

Lemma concat_length_ext {A B} (f : nat -> list A) (g : nat -> list B) l :
  (forall j, length (f j) = length (g j)) ->
  length (concat (map f l)) = length (concat (map g l)).
Proof.
  intros H. induction l as [|x l IH]; [reflexivity|].
  simpl. rewrite !length_app, IH, H. reflexivity.
Qed.

Lemma batches_cover (texts : list (list ascii)) :
  concat (map (fun i => slice texts i (i + BATCH))
              (py_range (length texts) BATCH)) = texts.
Proof.
  unfold py_range. rewrite concat_slices. apply firstn_all2.
  pose proof (batches_count (length texts)) as [H _]. lia.
Qed.

(** C1: for every sequence of texts, when the embedding service keeps its
    interface (a call that returns gives one vector of dimension 1536 per
    text), [embed_texts] returns, without raising, a sequence with one vector
    per text: the texts are cut in consecutive batches of at most 100 in
    order, batch [k] is sent by the [k]-th call, and positions
    [100 k .. 100 k + 99] of the output hold the vectors the call returned,
    or all-zero vectors of dimension 1536 when the call raised. *)
Theorem embed_texts_aligned (texts : list (list ascii)) (w : World F) :
  service_contract env ->
  exists w' out,
    embed_texts zero env texts w = (w', Ok out)
    /\ length out = length texts
    /\ concat (map (fun i => slice texts i (i + BATCH))
                   (py_range (length texts) BATCH)) = texts
    /\ forall k,
         k * BATCH < length texts ->
         length (batch_of texts k) <= BATCH
         /\ slice out (k * BATCH) (k * BATCH + BATCH)
            = match embeddings_create env (now w + k) (batch_of texts k) with
              | Ok vs => vs
              | Raise _ =>
                  repeat (repeat zero EMBEDDING_DIM)
                         (length (batch_of texts k))
              end.
Proof.
  intros Hc. unfold embed_texts, py_range.
  set (nb := (length texts + (BATCH - 1)) / BATCH).
  destruct (embed_loop_run zero env texts nb 0 [] w) as (w1 & He & _).
  rewrite (bind_ok _ _ _ _ _ He). cbn [app plus] in *.
  set (f := fun j => batch_result zero env (now w + j) (batch_of texts j)).
  assert (Hlenf : forall j, length (f j) = length (batch_of texts j)).
  { intros j. apply batch_result_length. exact Hc. }
  exists w1, (concat (map f (seq 0 nb))).
  split; [|split; [|split]].
  - unfold lift. f_equal. apply (np_array_rectangular EMBEDDING_DIM).
    apply Forall_concat. apply List.Forall_map.
    apply List.Forall_forall. intros j _. apply batch_result_dim. exact Hc.
  - rewrite (concat_length_ext f (fun j => batch_of texts j) _ Hlenf).
    pose proof (batches_cover texts) as Hcov. unfold py_range in Hcov.
    rewrite map_map in Hcov. fold nb in Hcov. rewrite Hcov. reflexivity.
  - fold nb. apply batches_cover.
  - intros k Hk.
    pose proof (slice_length texts k BATCH) as Hsl.
    split; [lia|].
    change (match embeddings_create env (now w + k) (batch_of texts k) with
            | Ok vs => vs
            | Raise _ =>
                repeat (repeat zero EMBEDDING_DIM) (length (batch_of texts k))
            end) with (f k).
    apply slice_concat_blocks.
    + intros j Hj. rewrite Hlenf, slice_length. unfold BATCH in *. lia.
    + apply batches_count. exact Hk.
    + rewrite Hlenf, Hsl. subst nb. unfold BATCH in *.
      change (100 - 1) with 99.
      pose proof (Nat.div_mod_eq (length texts + 99) 100) as Hd.
      pose proof (Nat.mod_upper_bound (length texts + 99) 100) as Hm.
      lia.
Qed.

End EmbeddingClaims.

(* ===================================================================== *)
(** ** What each computation leaves untouched *)
(* ===================================================================== *)

Create HintDb frame.

Section Frames.

Context {F : Type} (zero : F) (env : Env F).

Section Combinators.

Context {X : Type} (proj : World F -> X).

Lemma preserves_ret {A} (a : A) : preserves proj (ret a).
Proof. intros w. reflexivity. Qed.

Lemma preserves_raise {A} e : preserves proj (@raise F A e).
Proof. intros w. reflexivity. Qed.

Lemma preserves_lift {A} (o : outcome A) : preserves proj (lift o).
Proof. intros w. reflexivity. Qed.

Lemma preserves_bind {A B} (m : M F A) (k : A -> M F B) :
  preserves proj m -> (forall a, preserves proj (k a)) ->
  preserves proj (bind m k).
Proof.
  intros Hm Hk w. unfold bind. specialize (Hm w).
  destruct (m w) as [w1 [a|e]]; simpl in *.
  - rewrite Hk. exact Hm.
  - exact Hm.
Qed.

Lemma preserves_try {A} (m : M F A) (h : exn -> M F A) :
  preserves proj m -> (forall e, preserves proj (h e)) ->
  preserves proj (try_except m h).
Proof.
  intros Hm Hh w. unfold try_except. specialize (Hm w).
  destruct (m w) as [w1 [a|e]]; simpl in *.
  - exact Hm.
  - rewrite Hh. exact Hm.
Qed.

Lemma preserves_for_each {A} (xs : list A) (f : A -> M F unit) :
  (forall x, preserves proj (f x)) -> preserves proj (for_each xs f).
Proof.
  intros Hf. induction xs as [|x xs IH]; simpl.
  - apply preserves_ret.
  - apply preserves_bind; [apply Hf | intros _; exact IH].
Qed.

Lemma preserves_print l : ignores_stdout proj -> preserves proj (print l).
Proof. intros H w. apply H; reflexivity. Qed.

Lemma preserves_tick : ignores_now proj -> preserves proj tick.
Proof. intros H w. apply H; reflexivity. Qed.

Lemma preserves_open_pdf path : preserves proj (open_pdf env path).
Proof. intros w. unfold open_pdf. destruct (files w !! path); reflexivity. Qed.

Lemma preserves_os_remove path :
  ignores_files proj -> preserves proj (os_remove path).
Proof.
  intros H w. unfold os_remove.
  destruct (files w !! path); [apply H|]; reflexivity.
Qed.

Lemma preserves_write_file path data :
  ignores_now proj -> ignores_files proj ->
  preserves proj (write_file env path data).
Proof.
  intros Hn Hf w. unfold write_file, bind, tick. simpl.
  destruct (open_wb_fault env (now w) path); simpl.
  - apply Hn; reflexivity.
  - transitivity (proj (fst (tick w)));
      [apply Hf | apply Hn]; reflexivity.
Qed.

Lemma preserves_db_insert row :
  ignores_now proj -> ignores_embeddings proj ->
  preserves proj (db_insert env row).
Proof.
  intros Hn He w. unfold db_insert, bind, tick. simpl.
  destruct (insert_fault env (now w) (row (now w))); simpl.
  - apply Hn; reflexivity.
  - transitivity (proj (fst (tick w)));
      [apply He | apply Hn]; reflexivity.
Qed.

Lemma preserves_db_update knowledge_id patch :
  ignores_now proj -> ignores_knowledge proj ->
  preserves proj (db_update env knowledge_id patch).
Proof.
  intros Hn Hk w. unfold db_update, bind, tick. simpl.
  destruct (update_fault env (now w) knowledge_id); simpl.
  - apply Hn; reflexivity.
  - transitivity (proj (fst (tick w)));
      [apply Hk | apply Hn]; reflexivity.
Qed.

End Combinators.

Lemma tables_ignore :
  ignores_stdout (@tables F) /\ ignores_now (@tables F)
  /\ ignores_files (@tables F).
Proof. repeat split; intros w v; unfold tables; congruence. Qed.

Lemma knowledge_ignores :
  ignores_stdout (@project_knowledge F) /\ ignores_now (@project_knowledge F)
  /\ ignores_files (@project_knowledge F)
  /\ ignores_embeddings (@project_knowledge F).
Proof. repeat split; intros w v; congruence. Qed.

Lemma embeddings_ignore :
  ignores_stdout (@project_embeddings F) /\ ignores_now (@project_embeddings F)
  /\ ignores_files (@project_embeddings F)
  /\ ignores_knowledge (@project_embeddings F).
Proof. repeat split; intros w v; congruence. Qed.

Lemma started_ignores :
  ignores_now (@started_in F) /\ ignores_files (@started_in F)
  /\ ignores_embeddings (@started_in F) /\ ignores_knowledge (@started_in F).
Proof. repeat split; intros w v; unfold started_in; congruence. Qed.

Lemma started_app l1 l2 : started (l1 ++ l2) = started l1 ++ started l2.
Proof.
  induction l1 as [|x l1 IH]; [reflexivity|].
  destruct x; simpl; rewrite IH; reflexivity.
Qed.

(** A line that does not start a document leaves the started ones. *)
Lemma started_print l : not_start l -> preserves (@started_in F) (print l).
Proof.
  intros H w. unfold started_in, print. simpl. rewrite started_app.
  destruct l; simpl in *; try contradiction; apply app_nil_r.
Qed.

End Frames.

#[export] Hint Resolve preserves_ret preserves_raise preserves_lift
  preserves_print preserves_tick preserves_open_pdf preserves_os_remove
  preserves_write_file preserves_db_insert preserves_db_update
  started_print : frame.
#[export] Hint Extern 1 (ignores_stdout _) =>
  first [apply tables_ignore | apply knowledge_ignores
        | apply embeddings_ignore] : frame.
#[export] Hint Extern 1 (ignores_now _) =>
  first [apply tables_ignore | apply knowledge_ignores
        | apply embeddings_ignore | apply started_ignores] : frame.
#[export] Hint Extern 1 (ignores_files _) =>
  first [apply tables_ignore | apply knowledge_ignores
        | apply embeddings_ignore | apply started_ignores] : frame.
#[export] Hint Extern 1 (ignores_embeddings _) =>
  first [apply knowledge_ignores | apply started_ignores] : frame.
#[export] Hint Extern 1 (ignores_knowledge _) =>
  first [apply embeddings_ignore | apply started_ignores] : frame.
#[export] Hint Extern 1 (not_start _) => exact I : frame.

(** Goes through the binds, handlers and loops of a computation and closes
    the leaves with the hints of [frame]. *)
Ltac frame :=
  repeat first
    [ solve [auto with frame]
    | apply preserves_bind; [|intros ?]
    | apply preserves_try; [|intros ?]
    | apply preserves_for_each; intros ? ].

(* ===================================================================== *)
(** ** Properties of the PDF content fetcher *)
(* ===================================================================== *)

Section Fetcher.

Context {F : Type} (env : Env F).

Lemma extract_pages_raise pages e :
  In (Raise e) pages ->
  forall text_content, exists e', extract_pages pages text_content = Raise e'.
Proof.
  induction pages as [|p pages IH]; intros Hin text_content; [destruct Hin|].
  destruct p as [[page_text|]|e0]; simpl.
  - destruct Hin as [Hp|Hin]; [discriminate|].
    destruct (Py.truthy page_text); apply IH; exact Hin.
  - destruct Hin as [Hp|Hin]; [discriminate|]. apply IH. exact Hin.
  - eauto.
Qed.

(** The call always returns; what it returns and what it leaves on disk
    depends on the first step that fails, if one does. *)
Lemma fetch_cases file_path (w : World F) :
  let temp_path := temp_path_of file_path in
  exists w' text,
    get_pdf_content_from_supabase env file_path w = (w', Ok text)
    /\ match storage_download env (now w) file_path with
       | Ok (Some data) =>
           match open_wb_fault env (S (now w)) temp_path with
           | None =>
               match pdfplumber_open env data with
               | Ok pages =>
                   match extract_pages pages [] with
                   | Ok t =>
                       text = t
                       /\ files w' = delete temp_path
                                       (<[temp_path := data]> (files w))
                   | Raise _ =>
                       text = []
                       /\ files w' = <[temp_path := data]> (files w)
                   end
               | Raise _ =>
                   text = [] /\ files w' = <[temp_path := data]> (files w)
               end
           | Some _ => text = [] /\ files w' = files w
           end
       | _ => text = [] /\ files w' = files w
       end.
Proof.
  intros temp_path.
  unfold get_pdf_content_from_supabase, try_except, bind, tick, lift.
  cbn [fst snd now].
  destruct (storage_download env (now w) file_path) as [[data|]|e].
  - fold temp_path. unfold write_file, bind, tick. cbn [fst snd now].
    destruct (open_wb_fault env (S (now w)) temp_path) as [e|].
    + unfold raise, print, ret. cbn. eauto.
    + unfold open_pdf. cbn [files]. rewrite lookup_insert_eq.
      destruct (pdfplumber_open env data) as [pages|e].
      * destruct (extract_pages pages []) as [t|e].
        -- unfold os_remove. cbn [files]. rewrite lookup_insert_eq.
           unfold ret. cbn. eauto.
        -- unfold print, ret. cbn. eauto.
      * unfold print, ret. cbn. eauto.
  - unfold raise, print, ret. cbn. eauto.
  - unfold print, ret. cbn. eauto.
Qed.

End Fetcher.

Section FetcherClaims.

Context {F : Type} (env : Env F).

(** C9: the fetch never raises: for every path and every world it returns a
    text, and when any step fails (download, scratch-file write, opening of
    the PDF, extraction of a page) the text is the empty string. *)
Theorem fetch_never_raises file_path (w : World F) :
  (exists w' text,
      get_pdf_content_from_supabase env file_path w = (w', Ok text))
  /\ (fetch_step_fails env file_path w ->
      snd (get_pdf_content_from_supabase env file_path w) = Ok []).
Proof.
  destruct (fetch_cases env file_path w) as (w' & text & He & Hm).
  split; [eauto|]. intros Hfail. rewrite He. cbn [snd]. f_equal.
  destruct Hfail as [[e H]|[H|(data & H & Hstep)]]; rewrite H in Hm;
    try (destruct Hm as [Ht _]; exact Ht).
  destruct (open_wb_fault env (S (now w)) (temp_path_of file_path)) as [e|];
    [destruct Hm as [Ht _]; exact Ht|].
  destruct Hstep as [[e Hw]|[[e Hp]|(pages & e & Hp & Hin)]].
  - discriminate Hw.
  - rewrite Hp in Hm. destruct Hm as [Ht _]. exact Ht.
  - rewrite Hp in Hm.
    destruct (extract_pages_raise pages e Hin []) as [e' He'].
    rewrite He' in Hm. destruct Hm as [Ht _]. exact Ht.
Qed.

(** When every step succeeds the text is returned and the scratch file is
    gone. *)
Lemma fetch_success_removes_scratch file_path (w : World F) data pages text :
  storage_download env (now w) file_path = Ok (Some data) ->
  open_wb_fault env (S (now w)) (temp_path_of file_path) = None ->
  pdfplumber_open env data = Ok pages ->
  extract_pages pages [] = Ok text ->
  snd (get_pdf_content_from_supabase env file_path w) = Ok text
  /\ files (fst (get_pdf_content_from_supabase env file_path w))
       !! temp_path_of file_path = None.
Proof.
  intros Hd Hw Hp Hx.
  destruct (fetch_cases env file_path w) as (w' & t & He & Hm).
  rewrite Hd, Hw, Hp, Hx in Hm. destruct Hm as [-> Hf].
  rewrite He. cbn [fst snd]. split; [reflexivity|].
  rewrite Hf. apply lookup_delete_eq.
Qed.

(** When the scratch file was written and the extraction then fails, the
    call returns the empty text and the scratch file stays on disk. *)
Lemma fetch_failure_leaves_scratch file_path (w : World F) data :
  storage_download env (now w) file_path = Ok (Some data) ->
  open_wb_fault env (S (now w)) (temp_path_of file_path) = None ->
  (exists e, pdfplumber_open env data = Raise e)
  \/ (exists pages e, pdfplumber_open env data = Ok pages
                      /\ In (Raise e) pages) ->
  snd (get_pdf_content_from_supabase env file_path w) = Ok []
  /\ files (fst (get_pdf_content_from_supabase env file_path w))
       !! temp_path_of file_path = Some data.
Proof.
  intros Hd Hw Hfail.
  destruct (fetch_cases env file_path w) as (w' & t & He & Hm).
  rewrite Hd, Hw in Hm. rewrite He. cbn [fst snd].
  assert (Hleft : t = []
                  /\ files w' = <[temp_path_of file_path := data]> (files w)).
  { destruct Hfail as [[e Hp]|(pages & e & Hp & Hin)]; rewrite Hp in Hm.
    - exact Hm.
    - destruct (extract_pages_raise pages e Hin []) as [e' He'].
      rewrite He' in Hm. exact Hm. }
  destruct Hleft as [-> Hf]. split; [reflexivity|].
  rewrite Hf. apply lookup_insert_eq.
Qed.

End FetcherClaims.

Lemma fetch_never_raises_witness :
  (exists w' text,
      get_pdf_content_from_supabase Fixture.env "kb/p1/missing.pdf"
        Fixture.w0 = (w', Ok text))
  /\ snd (get_pdf_content_from_supabase Fixture.env "kb/p1/missing.pdf"
            Fixture.w0) = Ok [].
Proof.
  destruct (fetch_never_raises Fixture.env "kb/p1/missing.pdf" Fixture.w0)
    as [Hret Hempty].
  split; [exact Hret|]. apply Hempty. right. left. reflexivity.
Defined.

(** C6 (the code departs from it): the bucket holds a file that is not a
    PDF; the fetch writes it to the scratch file, the PDF library raises,
    the call returns the empty text, and the scratch file is still on disk
    when the call has returned. For the good PDF the scratch file is
    removed. *)
Theorem scratch_file_left_after_failure :
  let after_bad :=
    get_pdf_content_from_supabase Fixture.env "kb/p1/bad.pdf" Fixture.w0 in
  let after_good :=
    get_pdf_content_from_supabase Fixture.env "kb/p1/good.pdf" Fixture.w0 in
  snd after_bad = Ok []
  /\ files (fst after_bad) !! "temp_bad.pdf"%string = Some Fixture.bad_pdf
  /\ snd after_good
     = Ok Fixture.good_text
  /\ files (fst after_good) !! "temp_good.pdf"%string = None.
Proof.
  cbv zeta.
  destruct (fetch_failure_leaves_scratch Fixture.env "kb/p1/bad.pdf"
              Fixture.w0 Fixture.bad_pdf) as [Hb1 Hb2];
    [reflexivity | reflexivity | left; eexists; reflexivity |].
  destruct (fetch_success_removes_scratch Fixture.env "kb/p1/good.pdf"
              Fixture.w0 Fixture.good_pdf Fixture.pages_of_good_pdf
              Fixture.good_text)
    as [Hg1 Hg2]; try reflexivity.
  repeat split; assumption.
Qed.

Lemma fixture_service_contract : service_contract Fixture.env.
Proof.
  intros t batch vs. unfold Fixture.env, embeddings_create, Fixture.service.
  destruct (t =? 1); [discriminate|]. intros H.
  assert (Hv : vs = map (fun _ => Fixture.unit_vector) batch) by congruence.
  subst vs. split.
  - apply length_map.
  - apply List.Forall_map. apply List.Forall_forall. intros x _.
    unfold Fixture.unit_vector. apply repeat_length.
Qed.

Lemma embed_texts_aligned_witness :
  service_contract Fixture.env
  /\ exists w' out,
       embed_texts 0%Z Fixture.env Fixture.texts150 Fixture.w0 = (w', Ok out)
       /\ length out = length Fixture.texts150
       /\ concat (map (fun i => slice Fixture.texts150 i (i + BATCH))
                      (py_range (length Fixture.texts150) BATCH))
          = Fixture.texts150
       /\ forall k,
            k * BATCH < length Fixture.texts150 ->
            length (slice Fixture.texts150 (k * BATCH) (k * BATCH + BATCH))
            <= BATCH
            /\ slice out (k * BATCH) (k * BATCH + BATCH)
               = match
                   embeddings_create Fixture.env (now Fixture.w0 + k)
                     (slice Fixture.texts150 (k * BATCH) (k * BATCH + BATCH))
                 with
                 | Ok vs => vs
                 | Raise _ =>
                     repeat (repeat 0%Z EMBEDDING_DIM)
                       (length (slice Fixture.texts150 (k * BATCH)
                                  (k * BATCH + BATCH)))
                 end.
Proof.
  split; [exact fixture_service_contract|].
  apply (embed_texts_aligned 0%Z Fixture.env Fixture.texts150 Fixture.w0).
  exact fixture_service_contract.
Defined.

(* ===================================================================== *)
(** ** Computations that do not read what was printed *)
(* ===================================================================== *)

Create HintDb respects.

Section Respects.

Context {F : Type} (zero : F) (env : Env F).

Lemma same_state_refl (w : World F) : same_state w w.
Proof. repeat split. Qed.

Lemma same_state_trans (u v w : World F) :
  same_state u v -> same_state v w -> same_state u w.
Proof.
  intros (H1 & H2 & H3 & H4) (G1 & G2 & G3 & G4).
  repeat split; congruence.
Qed.

Lemma same_state_print l (w : World F) : same_state w (fst (print l w)).
Proof. repeat split. Qed.

Lemma respects_ret {A} (a : A) : respects (@ret F A a).
Proof. intros w v H. split; [reflexivity | exact H]. Qed.

Lemma respects_raise {A} e : respects (@raise F A e).
Proof. intros w v H. split; [reflexivity | exact H]. Qed.

Lemma respects_lift {A} (o : outcome A) : respects (@lift F A o).
Proof. intros w v H. split; [reflexivity | exact H]. Qed.

Lemma respects_print l : respects (@print F l).
Proof.
  intros w v (H1 & H2 & H3 & H4). split; [reflexivity|].
  repeat split; assumption.
Qed.

Lemma respects_tick : respects (@tick F).
Proof.
  intros w v (H1 & H2 & H3 & H4). unfold tick. cbn.
  split; [congruence|]. repeat split; cbn; congruence.
Qed.

Lemma respects_bind {A B} (m : M F A) (k : A -> M F B) :
  respects m -> (forall a, respects (k a)) -> respects (bind m k).
Proof.
  intros Hm Hk w v H. unfold bind. destruct (Hm w v H) as [Ho Hs].
  destruct (m w) as [w1 [a|e]], (m v) as [v1 [a'|e']];
    cbn [fst snd] in Ho, Hs; try discriminate.
  - injection Ho as <-. apply Hk. exact Hs.
  - injection Ho as <-. split; [reflexivity | exact Hs].
Qed.

Lemma respects_try {A} (m : M F A) (h : exn -> M F A) :
  respects m -> (forall e, respects (h e)) -> respects (try_except m h).
Proof.
  intros Hm Hh w v H. unfold try_except. destruct (Hm w v H) as [Ho Hs].
  destruct (m w) as [w1 [a|e]], (m v) as [v1 [a'|e']];
    cbn [fst snd] in Ho, Hs; try discriminate.
  - split; assumption.
  - injection Ho as <-. apply Hh. exact Hs.
Qed.

Lemma respects_write_file path data : respects (write_file env path data).
Proof.
  unfold write_file. apply respects_bind; [apply respects_tick|].
  intros t. destruct (open_wb_fault env t path); [apply respects_raise|].
  intros w v (H1 & H2 & H3 & H4). split; [reflexivity|].
  repeat split; cbn; congruence.
Qed.

Lemma respects_open_pdf path : respects (open_pdf env path).
Proof.
  intros w v (H1 & H2 & H3 & H4). unfold open_pdf. rewrite H1.
  destruct (files v !! path); (split; [reflexivity|]);
    repeat split; assumption.
Qed.

Lemma respects_os_remove path : respects (@os_remove F path).
Proof.
  intros w v (H1 & H2 & H3 & H4). unfold os_remove. rewrite H1.
  destruct (files v !! path); (split; [reflexivity|]);
    repeat split; cbn; congruence.
Qed.

Lemma respects_fetch file_path :
  respects (get_pdf_content_from_supabase env file_path).
Proof.
  unfold get_pdf_content_from_supabase.
  apply respects_try.
  - apply respects_bind; [apply respects_tick|]. intros t.
    apply respects_bind; [apply respects_lift|]. intros [data|].
    + apply respects_bind; [apply respects_write_file|]. intros _.
      apply respects_bind; [apply respects_open_pdf|]. intros pages.
      apply respects_bind; [apply respects_lift|]. intros text.
      apply respects_bind; [apply respects_os_remove|]. intros _.
      apply respects_ret.
    + apply respects_raise.
  - intros e. apply respects_bind; [apply respects_print|]. intros _.
    apply respects_ret.
Qed.

Lemma respects_embed_batch texts i embeddings :
  respects (embed_batch zero env texts i embeddings).
Proof.
  unfold embed_batch. apply respects_try.
  - apply respects_bind; [apply respects_tick|]. intros t.
    apply respects_bind; [apply respects_lift|]. intros vs.
    apply respects_bind; [apply respects_print|]. intros _.
    apply respects_ret.
  - intros e. apply respects_bind; [apply respects_print|]. intros _.
    apply respects_ret.
Qed.

Lemma respects_embed_loop texts starts :
  forall embeddings, respects (embed_loop zero env texts starts embeddings).
Proof.
  induction starts as [|i starts IH]; intros embeddings; simpl.
  - apply respects_ret.
  - apply respects_bind; [apply respects_embed_batch | exact IH].
Qed.

Lemma respects_embed_texts texts : respects (embed_texts zero env texts).
Proof.
  unfold embed_texts. apply respects_bind; [apply respects_embed_loop|].
  intros embeddings. apply respects_lift.
Qed.

End Respects.

(* ===================================================================== *)
(** ** Properties of the orchestrator *)
(* ===================================================================== *)

Section Orchestrator.

Context {F : Type} (zero : F) (env : Env F).

Lemma run_eq {A} (m : M F A) w o : snd (m w) = o -> m w = (fst (m w), o).
Proof. intros <-. destruct (m w). reflexivity. Qed.

Lemma total_try_handler {A} (m : M F A) (h : exn -> M F A) :
  (forall e, total (h e)) -> total (try_except m h).
Proof.
  intros Hh w. unfold try_except.
  destruct (m w) as [w1 [a|e]]; [exists a; reflexivity | apply Hh].
Qed.

Lemma total_print l : total (@print F l).
Proof. intros w. exists tt. reflexivity. Qed.

Lemma total_for_each {A} (xs : list A) (f : A -> M F unit) :
  (forall x, total (f x)) -> total (for_each xs f).
Proof.
  intros Hf. induction xs as [|x xs IH]; intros w; simpl.
  - exists tt. reflexivity.
  - unfold bind. destruct (Hf x w) as [a Ha].
    destruct (f x w) as [w1 o]. cbn in Ha. subst o. apply IH.
Qed.

Lemma total_store_chunk project_id knowledge_id n item :
  total (store_chunk env project_id knowledge_id n item).
Proof.
  destruct item as [i [chunk embedding]]. unfold store_chunk.
  apply total_try_handler. intros e. apply total_print.
Qed.

Lemma fetch_keeps_tables file_path :
  preserves (@tables F) (get_pdf_content_from_supabase env file_path).
Proof.
  unfold get_pdf_content_from_supabase.
  apply preserves_try; [|intros e; frame].
  apply preserves_bind; [frame|]. intros t.
  apply preserves_bind; [frame|]. intros [data|]; frame.
Qed.

Lemma embed_loop_keeps_tables texts starts :
  forall embeddings,
    preserves (@tables F) (embed_loop zero env texts starts embeddings).
Proof.
  induction starts as [|i starts IH]; intros embeddings; simpl.
  - frame.
  - apply preserves_bind; [unfold embed_batch; frame | exact IH].
Qed.

Lemma embed_texts_keeps_tables texts :
  preserves (@tables F) (embed_texts zero env texts).
Proof.
  unfold embed_texts. apply preserves_bind;
    [apply embed_loop_keeps_tables | intros ?; frame].
Qed.

Lemma store_keeps_knowledge project_id knowledge_id n items :
  preserves (@project_knowledge F)
    (for_each items (store_chunk env project_id knowledge_id n)).
Proof.
  apply preserves_for_each. intros [i [chunk embedding]].
  unfold store_chunk. frame.
Qed.

Lemma db_update_run knowledge_id patch (w : World F) :
  update_fault env (now w) knowledge_id = None ->
  snd (db_update env knowledge_id patch w) = Ok tt
  /\ project_knowledge (fst (db_update env knowledge_id patch w))
     = patch_rows knowledge_id (patch (now w)) (project_knowledge w)
  /\ project_embeddings (fst (db_update env knowledge_id patch w))
     = project_embeddings w.
Proof.
  intros H. unfold db_update, bind, tick. cbn. rewrite H. cbn.
  repeat split.
Qed.

Lemma patch_rows_failure knowledge_id e t table :
  Forall (fun r => kr_id r = knowledge_id ->
                   kr_processed r = false
                   /\ kr_processing_error r = Some e)
         (patch_rows knowledge_id (failure_patch e t) table).
Proof.
  unfold patch_rows. apply List.Forall_map. apply List.Forall_forall.
  intros r _ Hid.
  destruct (String.eqb (kr_id r) knowledge_id) eqn:E.
  - split; reflexivity.
  - apply String.eqb_neq in E. contradiction.
Qed.

Lemma patch_rows_success knowledge_id n t table :
  Forall (fun r => kr_id r = knowledge_id ->
                   kr_processed r = true
                   /\ kr_processed_at r = Some t
                   /\ kr_chunks_count r = Some n)
         (patch_rows knowledge_id (success_patch n t) table)
  /\ map kr_processing_error
       (patch_rows knowledge_id (success_patch n t) table)
     = map kr_processing_error table.
Proof.
  unfold patch_rows. split.
  - apply List.Forall_map. apply List.Forall_forall. intros r _ Hid.
    destruct (String.eqb (kr_id r) knowledge_id) eqn:E.
    + repeat split.
    + apply String.eqb_neq in E. contradiction.
  - rewrite map_map. apply map_ext. intros r.
    destruct (String.eqb (kr_id r) knowledge_id); reflexivity.
Qed.

End Orchestrator.

Section OrchestratorClaims.

Context {F : Type} (zero : F) (env : Env F).

(** The fetch made by the orchestrator, after its first two lines are
    printed, gives what the fetch gives in the world of the call, and leaves
    the tables as they are. *)
Lemma fetch_in_process file_path file_name (w : World F) :
  let w1 := fst (print LogExtracting (fst (print (LogProcessing file_name) w))) in
  snd (get_pdf_content_from_supabase env file_path w1)
  = snd (get_pdf_content_from_supabase env file_path w)
  /\ same_state (fst (get_pdf_content_from_supabase env file_path w))
                (fst (get_pdf_content_from_supabase env file_path w1))
  /\ tables (fst (get_pdf_content_from_supabase env file_path w1))
     = tables w.
Proof.
  intros w1.
  assert (Hs : same_state w w1) by (repeat split).
  destruct (respects_fetch env file_path w w1 Hs) as [Ho Hst].
  split; [symmetry; exact Ho|]. split; [exact Hst|].
  rewrite fetch_keeps_tables. reflexivity.
Qed.

(** C7: when the text fetched for a record is empty and the datastore
    accepts the status update, processing that record raises the failure
    "No text content extracted from PDF" to the caller, after every row of
    [project_knowledge] with the record's id was set to [processed = false]
    with that (non-empty) message as [processing_error]; no row is added to
    [project_embeddings]. *)
Theorem empty_text_fails_record
    project_id knowledge_id file_path file_name (w : World F) :
  snd (get_pdf_content_from_supabase env file_path w) = Ok [] ->
  (forall t, update_fault env t knowledge_id = None) ->
  exists w' t,
    process_pdf_and_store_embeddings zero env
      project_id knowledge_id file_path file_name w
    = (w', Raise NO_TEXT)
    /\ NO_TEXT <> EmptyString
    /\ project_knowledge w'
       = patch_rows knowledge_id (failure_patch NO_TEXT t)
           (project_knowledge w)
    /\ Forall (fun r => kr_id r = knowledge_id ->
                        kr_processed r = false
                        /\ kr_processing_error r = Some NO_TEXT)
              (project_knowledge w')
    /\ project_embeddings w' = project_embeddings w.
Proof.
  intros Hempty Hupd.
  destruct (fetch_in_process file_path file_name w) as (Ho & _ & Ht).
  rewrite Hempty in Ho.
  set (w1 := fst (print LogExtracting
                    (fst (print (LogProcessing file_name) w)))) in *.
  set (w2 := fst (get_pdf_content_from_supabase env file_path w1)) in *.
  set (w3 := fst (print (LogProcessError NO_TEXT) w2)).
  destruct (db_update_run env knowledge_id (failure_patch NO_TEXT) w3
              (Hupd _)) as (Hs & Hpk & Hpe).
  exists (fst (db_update env knowledge_id (failure_patch NO_TEXT) w3)), (now w3).
  assert (Htab : project_knowledge w3 = project_knowledge w
                 /\ project_embeddings w3 = project_embeddings w).
  { unfold tables in Ht. injection Ht as Hk He. split; assumption. }
  destruct Htab as [Hk He].
  split; [|split; [discriminate|split; [|split]]].
  - unfold process_pdf_and_store_embeddings.
    erewrite try_raise.
    2:{ erewrite bind_ok by reflexivity.
        erewrite bind_ok by reflexivity.
        erewrite bind_ok by (apply run_eq; exact Ho).
        erewrite bind_raise by reflexivity. reflexivity. }
    erewrite bind_ok by reflexivity.
    erewrite bind_ok by (apply run_eq; exact Hs).
    reflexivity.
  - rewrite Hpk, Hk. reflexivity.
  - rewrite Hpk. apply patch_rows_failure.
  - rewrite Hpe, He. reflexivity.
Qed.

(** C3 (amended): when the fetch gives a non-empty text, the embedding step
    returns and the datastore accepts the status update, processing returns
    without raising and every row of [project_knowledge] with the record's
    id has [processed = true], the time of the update as [processed_at] and
    the number of chunks the chunker produced as [chunks_count], whatever
    happened to the single row insertions; the stored [processing_error] of
    every row is left as it was. *)
Theorem success_marks_record
    project_id knowledge_id file_path file_name (w : World F)
    text embeddings :
  let text_chunks :=
    split_into_chunks text default_max_chunk_size default_overlap in
  snd (get_pdf_content_from_supabase env file_path w) = Ok text ->
  text <> [] ->
  snd (embed_texts zero env text_chunks
         (fst (get_pdf_content_from_supabase env file_path w)))
  = Ok embeddings ->
  (forall t, update_fault env t knowledge_id = None) ->
  exists w' t,
    process_pdf_and_store_embeddings zero env
      project_id knowledge_id file_path file_name w
    = (w', Ok tt)
    /\ project_knowledge w'
       = patch_rows knowledge_id (success_patch (length text_chunks) t)
           (project_knowledge w)
    /\ Forall (fun r => kr_id r = knowledge_id ->
                        kr_processed r = true
                        /\ kr_processed_at r = Some t
                        /\ kr_chunks_count r = Some (length text_chunks))
              (project_knowledge w')
    /\ map kr_processing_error (project_knowledge w')
       = map kr_processing_error (project_knowledge w).
Proof.
  intros text_chunks Htext Hne Hemb Hupd.
  destruct (fetch_in_process file_path file_name w) as (Ho & Hst & Ht).
  rewrite Htext in Ho.
  set (w1 := fst (print LogExtracting
                    (fst (print (LogProcessing file_name) w)))) in *.
  set (w2 := fst (get_pdf_content_from_supabase env file_path w1)) in *.
  set (w3 := fst (print LogGenerating
                (fst (print (LogCreated (length text_chunks))
                   (fst (print LogSplitting
                      (fst (print (LogExtracted (length text)) w2)))))))).
  assert (Hs3 : same_state
                  (fst (get_pdf_content_from_supabase env file_path w)) w3).
  { eapply same_state_trans; [exact Hst|]. repeat split. }
  destruct (respects_embed_texts zero env text_chunks _ _ Hs3) as [He3 _].
  rewrite Hemb in He3. symmetry in He3.
  set (w4 := fst (embed_texts zero env text_chunks w3)) in *.
  assert (Ht4 : tables w4 = tables w).
  { unfold w4. rewrite embed_texts_keeps_tables. exact Ht. }
  set (w5 := fst (print LogStoring w4)).
  set (store := for_each (enumerate (combine text_chunks embeddings))
                  (store_chunk env project_id knowledge_id
                     (length text_chunks))).
  destruct (total_for_each (enumerate (combine text_chunks embeddings))
              (store_chunk env project_id knowledge_id (length text_chunks))
              (fun item => total_store_chunk env project_id knowledge_id
                             (length text_chunks) item) w5)
    as [[] Hst6].
  fold store in Hst6.
  set (w6 := fst (store w5)) in *.
  assert (Hk6 : project_knowledge w6 = project_knowledge w).
  { unfold w6, store. rewrite store_keeps_knowledge.
    unfold tables in Ht4. injection Ht4 as Hk _. exact Hk. }
  set (w7 := fst (print (LogSuccess file_name) w6)).
  destruct (db_update_run env knowledge_id
              (success_patch (length text_chunks)) w7 (Hupd _))
    as (Hs & Hpk & _).
  exists (fst (db_update env knowledge_id
                 (success_patch (length text_chunks)) w7)), (now w7).
  assert (Htruthy : Py.truthy text = true).
  { clear - Hne. destruct text; [contradiction | reflexivity]. }
  split; [|split; [|split]].
  - unfold process_pdf_and_store_embeddings.
    erewrite try_ok; [reflexivity|].
    erewrite bind_ok by reflexivity.
    erewrite bind_ok by reflexivity.
    erewrite bind_ok by (apply run_eq; exact Ho).
    rewrite Htruthy.
    erewrite bind_ok by reflexivity.
    erewrite bind_ok by reflexivity.
    erewrite bind_ok by reflexivity.
    cbv zeta.
    erewrite bind_ok by reflexivity.
    erewrite bind_ok by reflexivity.
    erewrite bind_ok by (apply run_eq; exact He3).
    erewrite bind_ok by reflexivity.
    erewrite bind_ok by (apply run_eq; exact Hst6).
    erewrite bind_ok by reflexivity.
    apply run_eq. exact Hs.
  - rewrite Hpk. change (project_knowledge w7) with (project_knowledge w6).
    rewrite Hk6. reflexivity.
  - rewrite Hpk. apply patch_rows_success.
  - rewrite Hpk. change (project_knowledge w7) with (project_knowledge w6).
    rewrite Hk6. apply patch_rows_success.
Qed.

End OrchestratorClaims.

Section QueueScan.

Context {F : Type} (zero : F) (env : Env F).

Lemma fetch_keeps_started file_path :
  preserves (@started_in F) (get_pdf_content_from_supabase env file_path).
Proof.
  unfold get_pdf_content_from_supabase.
  apply preserves_try; [|intros e; frame].
  apply preserves_bind; [frame|]. intros t.
  apply preserves_bind; [frame|]. intros [data|]; frame.
Qed.

Lemma embed_loop_keeps_started texts starts :
  forall embeddings,
    preserves (@started_in F) (embed_loop zero env texts starts embeddings).
Proof.
  induction starts as [|i starts IH]; intros embeddings; simpl.
  - frame.
  - apply preserves_bind; [unfold embed_batch; frame | exact IH].
Qed.

Lemma embed_texts_keeps_started texts :
  preserves (@started_in F) (embed_texts zero env texts).
Proof.
  unfold embed_texts. apply preserves_bind;
    [apply embed_loop_keeps_started | intros ?; frame].
Qed.

Lemma store_keeps_started project_id knowledge_id n items :
  preserves (@started_in F)
    (for_each items (store_chunk env project_id knowledge_id n)).
Proof.
  apply preserves_for_each. intros [i [chunk embedding]].
  unfold store_chunk. frame.
Qed.

(** Processing one record prints its "Processing PDF" line once, whether
    it returns or raises. *)
Lemma process_started project_id knowledge_id file_path file_name (w : World F) :
  started_in (fst (process_pdf_and_store_embeddings zero env
                     project_id knowledge_id file_path file_name w))
  = started_in w ++ [file_name].
Proof.
  unfold process_pdf_and_store_embeddings.
  match goal with
  | |- context [try_except (bind (print ?l) ?k) ?h] =>
      assert (Hrest : preserves (@started_in F) (k tt));
      [|assert (Hh : forall e, preserves (@started_in F) (h e))]
  end.
  - apply preserves_bind; [frame|]. intros _.
    apply preserves_bind; [apply fetch_keeps_started|]. intros text.
    apply preserves_bind; [destruct (Py.truthy text); frame|]. intros _.
    cbv zeta. do 4 (apply preserves_bind; [frame|]; intros _).
    apply preserves_bind; [apply embed_texts_keeps_started|].
    intros embeddings.
    apply preserves_bind; [frame|]. intros _.
    apply preserves_bind; [apply store_keeps_started|]. intros _.
    frame.
  - intros e. frame.
  - unfold try_except, bind at 1.
    change (print (LogProcessing file_name) w)
      with (fst (print (LogProcessing file_name) w), @Ok unit tt).
    cbv iota beta.
    match goal with
    | |- context [match ?m ?w1 with _ => _ end] =>
        pose proof (Hrest w1) as H1; destruct (m w1) as [w2 [[]|e]]
    end; cbn [fst] in *.
    + rewrite H1. unfold started_in. cbn. apply started_app.
    + rewrite Hh, H1. unfold started_in. cbn. apply started_app.
Qed.

(** The loop over the records never raises, goes through them in order as
    [run_records] says, and starts each of them once. *)
Lemma scan_loop records :
  forall w : World F,
  exists w',
    for_each records (process_record zero env) w = (w', Ok tt)
    /\ run_records zero env records w w'
    /\ started_in w' = started_in w ++ map kr_file_name records.
Proof.
  induction records as [|r rest IH]; intros w.
  - exists w. split; [reflexivity|]. split; [constructor|].
    symmetry. apply app_nil_r.
  - pose proof (process_started (kr_project_id r) (kr_id r)
                  (kr_file_path r) (kr_file_name r) w) as Hst.
    cbn [for_each]. unfold bind, process_record at 1, try_except.
    destruct (process_pdf_and_store_embeddings zero env (kr_project_id r)
                (kr_id r) (kr_file_path r) (kr_file_name r) w)
      as [w1 [[]|e]] eqn:E; cbn [fst] in Hst.
    + destruct (IH w1) as (w' & Hrun & Hrec & Hs).
      exists w'. split; [exact Hrun|]. split.
      * eapply run_ok; eassumption.
      * rewrite Hs, Hst, <- app_assoc. reflexivity.
    + change (print (LogFailed (kr_file_name r) e) w1)
        with (fst (print (LogFailed (kr_file_name r) e) w1), @Ok unit tt).
      cbv iota beta.
      destruct (IH (fst (print (LogFailed (kr_file_name r) e) w1)))
        as (w' & Hrun & Hrec & Hs).
      exists w'. split; [exact Hrun|]. split.
      * eapply run_caught; eassumption.
      * rewrite Hs.
        rewrite (started_print (LogFailed (kr_file_name r) e) I w1).
        rewrite Hst, <- app_assoc. reflexivity.
Qed.

(** C8: the scan asks the datastore for the records with
    [processed = false] (none when the query raises) and processes each of
    them once, one after the other in the order of the answer; a failure
    raised by one record is caught and printed, the records after it are
    still processed, and the scan itself returns without raising. *)
Theorem scan_catches_and_continues (w : World F) :
  let records :=
    match select_fault env (now w) with
    | None => filter (fun r => negb (kr_processed r)) (project_knowledge w)
    | Some _ => []
    end in
  exists w0 w',
    process_all_unprocessed_pdfs zero env w = (w', Ok tt)
    /\ tables w0 = tables w
    /\ started_in w0 = started_in w
    /\ run_records zero env records w0 w'
    /\ started_in w' = started_in w ++ map kr_file_name records.
Proof.
  intros records. unfold process_all_unprocessed_pdfs.
  assert (Hq : exists wq,
             get_unprocessed_pdfs env w = (wq, Ok records)
             /\ tables wq = tables w /\ started_in wq = started_in w).
  { unfold get_unprocessed_pdfs, try_except, bind, tick. cbn [fst snd now].
    subst records. destruct (select_fault env (now w)) as [e|].
    - cbn. eexists. split; [reflexivity|]. split; [reflexivity|].
      unfold started_in. cbn. rewrite started_app. apply app_nil_r.
    - cbn. eexists. repeat split. }
  destruct Hq as (wq & Hq & Htq & Hsq).
  rewrite (bind_ok _ _ _ _ _ Hq).
  erewrite bind_ok by reflexivity.
  set (w0 := fst (print (LogFound (length records)) wq)).
  destruct (scan_loop records w0) as (w' & Hrun & Hrec & Hs).
  exists w0, w'. split; [exact Hrun|].
  assert (Hs0 : started_in w0 = started_in w).
  { unfold w0. rewrite (started_print (LogFound (length records)) I wq).
    exact Hsq. }
  split; [exact Htq|]. split; [exact Hs0|]. split; [exact Hrec|].
  rewrite Hs, Hs0. reflexivity.
Qed.

End QueueScan.

(* ===================================================================== *)
(** ** The claims on the small concrete world *)
(* ===================================================================== *)

Lemma empty_text_fails_record_witness :
  exists w' t,
    process_pdf_and_store_embeddings 0%Z Fixture.env
      "p1" "k2" "kb/p1/missing.pdf" "missing.pdf" Fixture.w0
    = (w', Raise NO_TEXT)
    /\ NO_TEXT <> EmptyString
    /\ project_knowledge w'
       = patch_rows "k2" (failure_patch NO_TEXT t)
           (project_knowledge Fixture.w0)
    /\ Forall (fun r => kr_id r = "k2"%string ->
                        kr_processed r = false
                        /\ kr_processing_error r = Some NO_TEXT)
              (project_knowledge w')
    /\ project_embeddings w' = project_embeddings Fixture.w0.
Proof.
  apply (empty_text_fails_record 0%Z Fixture.env
           "p1" "k2" "kb/p1/missing.pdf" "missing.pdf" Fixture.w0).
  - reflexivity.
  - intros t. reflexivity.
Defined.

Lemma success_marks_record_witness :
  exists w' t,
    process_pdf_and_store_embeddings 0%Z Fixture.env
      "p1" "k1" "kb/p1/good.pdf" "good.pdf" Fixture.w0
    = (w', Ok tt)
    /\ project_knowledge w'
       = patch_rows "k1" (success_patch 1 t) (project_knowledge Fixture.w0)
    /\ Forall (fun r => kr_id r = "k1"%string ->
                        kr_processed r = true
                        /\ kr_processed_at r = Some t
                        /\ kr_chunks_count r = Some 1)
              (project_knowledge w')
    /\ map kr_processing_error (project_knowledge w')
       = map kr_processing_error (project_knowledge Fixture.w0).
Proof.
  apply (success_marks_record 0%Z Fixture.env
           "p1" "k1" "kb/p1/good.pdf" "good.pdf" Fixture.w0
           Fixture.good_text [Fixture.unit_vector]).
  - vm_compute. reflexivity.
  - discriminate.
  - vm_compute. reflexivity.
  - intros t. reflexivity.
Defined.

(** C3 (as stated) fails: the record [k1] carries the error of an earlier
    attempt; it is processed successfully, and afterwards it has
    [processed = true] and one chunk counted, but its stored error message
    is still there. *)
Lemma success_keeps_stored_error :
  let run :=
    process_pdf_and_store_embeddings 0%Z Fixture.env
      "p1" "k1" "kb/p1/good.pdf" "good.pdf" Fixture.w0 in
  snd run = Ok tt
  /\ map Fixture.status (project_knowledge (fst run))
     = [("k1", true, Some 1, Some "timed out");
        ("k2", false, None, None);
        ("k3", false, None, None);
        ("k4", true, None, None)]%string
  /\ exists r,
       In r (project_knowledge (fst run))
       /\ kr_id r = "k1"%string
       /\ kr_processed r = true
       /\ kr_processing_error r <> None.
Proof.
  cbv zeta. split; [|split].
  - vm_compute. reflexivity.
  - vm_compute. reflexivity.
  - exists (success_patch 1 4 Fixture.r1). split; [|split; [|split]].
    + vm_compute. left. reflexivity.
    + reflexivity.
    + reflexivity.
    + discriminate.
Qed.

(** The scan of the four records: the first succeeds, the second has no
    content, the third is not a PDF, the fourth was processed before and is
    not touched. *)
Example scan_of_fixture :
  let run := process_all_unprocessed_pdfs 0%Z Fixture.env Fixture.w0 in
  snd run = Ok tt
  /\ map Fixture.status (project_knowledge (fst run))
     = [("k1", true, Some 1, Some "timed out");
        ("k2", false, None, Some NO_TEXT);
        ("k3", false, None, Some NO_TEXT);
        ("k4", true, None, None)]%string
  /\ started_in (fst run) = ["good.pdf"; "missing.pdf"; "bad.pdf"]%string
  /\ length (project_embeddings (fst run)) = 1.
Proof. cbv zeta. repeat split; vm_compute; reflexivity. Qed.

(** Scenario B of the specification: 300 texts, the second of three batches
    is refused. *)
Example embed_scenario_b :
  let texts := repeat (Py.lit "t") 300 in
  let run := embed_texts 0%Z Fixture.env texts Fixture.w0 in
  exists out,
    snd run = Ok out
    /\ length out = 300
    /\ slice out 0 100 = repeat Fixture.unit_vector 100
    /\ slice out 100 200 = repeat (repeat 0%Z EMBEDDING_DIM) 100
    /\ slice out 200 300 = repeat Fixture.unit_vector 100.
Proof.
  cbv zeta.
  exists (repeat Fixture.unit_vector 100
          ++ repeat (repeat 0%Z EMBEDDING_DIM) 100
          ++ repeat Fixture.unit_vector 100).
  repeat split; vm_compute; reflexivity.
Qed.

(** A lone sentence of three characters under a limit of three: it is kept
    whole, and the chunk has four characters, the period included. *)
Example chunk_at_the_limit :
  split_into_chunks (Py.lit "abc") 3 default_overlap = [Py.lit "abc."].
Proof. vm_compute. reflexivity. Qed.

(** Scenario A of the specification: the text of the two pages makes one
    chunk; its last sentence already ends with a period and gets another. *)
Example chunk_scenario_a :
  split_into_chunks Fixture.good_text default_max_chunk_size default_overlap
  = [Py.lit "Alpha. Beta." ++ Py.newline ++ Py.lit "Gamma.."].
Proof. vm_compute. reflexivity. Qed.

(** The size limit cuts between sentences only. *)
Example chunk_three_sentences :
  split_into_chunks (Py.lit "One two.  Three four. Five") 12 default_overlap
  = [Py.lit "One two."; Py.lit "Three four."; Py.lit "Five."].
Proof. vm_compute. reflexivity. Qed.

Example split_ex3 :
  Py.split (Py.lit "a. . b") sep = [Py.lit "a"; []; Py.lit "b"].
Proof. reflexivity. Qed.

(* ===================================================================== *)
(** ** Further properties of the chunker *)
(* ===================================================================== *)

Section Packing.

Variable max_chunk_size : Z.

Lemma tight_grow_last gs g x :
  g <> [] ->
  tight max_chunk_size (gs ++ [g]) -> tight max_chunk_size (gs ++ [g ++ x]).
Proof.
  intros Hg. induction gs as [|h gs IH]; intros Ht.
  - simpl. auto.
  - cbn [app tight] in *. destruct Ht as [Hh Ht]. split; [|apply IH; exact Ht].
    destruct gs as [|h' gs']; [|exact Hh].
    cbn [app] in *. destruct g as [|s0 g0]; [congruence | exact Hh].
Qed.

Lemma tight_snoc gs g s t :
  tight max_chunk_size (gs ++ [g]) ->
  (Py.len (concat (map unit_of g)) + Py.len (unit_of s) > max_chunk_size)%Z ->
  tight max_chunk_size ((gs ++ [g]) ++ [s :: t]).
Proof.
  intros Ht Hc. induction gs as [|h gs IH].
  - simpl. auto.
  - cbn [app tight] in *. destruct Ht as [Hh Ht]. split; [|apply IH; exact Ht].
    destruct gs as [|h' gs']; exact Hh.
Qed.

(** The loop keeps the runs packed: a run is closed only when the next
    sentence does not fit behind it. *)
Lemma chunk_loop_packing sentences :
  forall groups g,
    Forall (fun x : list (list ascii) => x <> []) groups ->
    (g = [] -> groups = []) ->
    tight max_chunk_size (groups ++ opened g) ->
    exists groups' g',
      chunk_loop max_chunk_size sentences
        (map render groups, concat (map unit_of g))
      = (map render groups', concat (map unit_of g'))
      /\ concat groups' ++ g' = concat groups ++ g ++ sentences
      /\ Forall (fun x : list (list ascii) => x <> []) groups'
      /\ (g' = [] -> groups' = [])
      /\ tight max_chunk_size (groups' ++ opened g').
Proof.
  induction sentences as [|s rest IH]; intros groups g Hne Hstart Ht.
  - exists groups, g. rewrite app_nil_r. auto.
  - rewrite chunk_loop_cons, chunk_step_eq.
    assert (Hone : unit_of s = concat (map unit_of [s])).
    { simpl. rewrite app_nil_r. reflexivity. }
    assert (Hjoin : concat (map unit_of g) ++ unit_of s
                    = concat (map unit_of (g ++ [s]))).
    { rewrite map_app, concat_app. simpl. rewrite app_nil_r. reflexivity. }
    destruct (Py.len (concat (map unit_of g)) + Py.len (unit_of s)
              >? max_chunk_size)%Z eqn:Hcmp.
    + destruct g as [|s0 g0].
      * rewrite (Hstart eq_refl) in *. simpl concat. rewrite flush_nil, Hone.
        destruct (IH [] [s]) as (gs' & g' & He & Hc & Hf & Hs & Hp);
          [constructor | discriminate | simpl; auto |].
        exists gs', g'. auto.
      * rewrite flush_group by discriminate. rewrite Hone.
        destruct (IH (groups ++ [s0 :: g0]) [s])
          as (gs' & g' & He & Hc & Hf & Hs & Hp).
        { apply Forall_app. split; [exact Hne|].
          constructor; [discriminate | constructor]. }
        { discriminate. }
        { apply tight_snoc; [exact Ht | lia]. }
        exists gs', g'. split; [exact He|]. split; [|auto].
        rewrite Hc, concat_app. simpl. rewrite app_nil_r, <- !app_assoc.
        reflexivity.
    + rewrite Hjoin.
      destruct (IH groups (g ++ [s])) as (gs' & g' & He & Hc & Hf & Hs & Hp).
      { exact Hne. }
      { intros Hnil. destruct g; discriminate. }
      { destruct g as [|s0 g0].
        - rewrite (Hstart eq_refl). simpl. auto.
        - apply (tight_grow_last groups (s0 :: g0) [s]); [discriminate|].
          exact Ht. }
      exists gs', g'. split; [exact He|]. split; [|auto].
      rewrite Hc, <- !app_assoc. reflexivity.
Qed.

(** The chunks, as the renderings of greedily packed runs of sentences. *)
Lemma chunks_packing text overlap :
  exists groups,
    concat groups = Py.split text sep
    /\ Forall (fun x : list (list ascii) => x <> []) groups
    /\ tight max_chunk_size groups
    /\ split_into_chunks text max_chunk_size overlap = map render groups.
Proof.
  unfold split_into_chunks.
  destruct (chunk_loop_packing (Py.split text sep) [] [])
    as (gs & g & He & Hc & Hf & Hs & Hp);
    [constructor | reflexivity | exact I |].
  simpl in He, Hc. rewrite He.
  destruct g as [|s0 g0].
  - exists gs. rewrite app_nil_r in Hc, Hp. simpl. rewrite flush_nil. auto.
  - exists (gs ++ [s0 :: g0]). rewrite flush_group by discriminate.
    split; [rewrite concat_app; simpl; rewrite app_nil_r; exact Hc|].
    split; [|auto].
    apply Forall_app. split; [exact Hf|].
    constructor; [discriminate | constructor].
Qed.

End Packing.

Section SplitPieces.

Variable d : list ascii.
Hypothesis d_nonempty : d <> [].

Lemma startswith_app p x y :
  Py.startswith p x = true -> Py.startswith p (x ++ y) = true.
Proof.
  revert x. induction p as [|a p IH]; intros x H; [reflexivity|].
  destruct x as [|b x]; [discriminate|].
  cbn [Py.startswith app] in *. apply andb_true_iff in H.
  destruct H as [Hab Hp]. rewrite Hab, (IH x Hp). reflexivity.
Qed.

Lemma contains_nil : contains d [] = false.
Proof. destruct d; [congruence | reflexivity]. Qed.

(** The first piece of a split is followed in the text by the separator, or
    by nothing. *)
Lemma first_piece s p ps :
  Py.split_from d s 0 = p :: ps -> exists tail, s = p ++ tail.
Proof.
  intros H. pose proof (join_split_from d s d_nonempty 0 (Nat.le_0_l _)) as Hj.
  rewrite H, skipn_O in Hj. destruct ps as [|q ps].
  - exists []. rewrite app_nil_r. symmetry. exact Hj.
  - eexists. symmetry. exact Hj.
Qed.

Lemma split_from_no_sep s :
  forall k, Forall (fun p => contains d p = false) (Py.split_from d s k).
Proof.
  induction s as [|c s IH]; intros k.
  - constructor; [apply contains_nil | constructor].
  - destruct k as [|k]; [|apply IH].
    change (Py.split_from d (c :: s) 0)
      with (if Py.startswith d (c :: s)
            then [] :: Py.split_from d s (length d - 1)
            else Py.push c (Py.split_from d s 0)).
    destruct (Py.startswith d (c :: s)) eqn:E.
    + constructor; [apply contains_nil | apply IH].
    + pose proof (IH 0) as Hall.
      destruct (Py.split_from d s 0) as [|p ps] eqn:Es.
      * exfalso. exact (split_from_nonempty d s 0 Es).
      * destruct (first_piece s p ps Es) as [tail Htail].
        pose proof (List.Forall_inv Hall) as Hp.
        pose proof (List.Forall_inv_tail Hall) as Hps. cbv beta in Hp.
        cbn [Py.push]. constructor; [|exact Hps].
        change (contains d (c :: p))
          with (Py.startswith d (c :: p) || contains d p).
        rewrite Hp, orb_false_r.
        destruct (Py.startswith d (c :: p)) eqn:Ep; [|reflexivity].
        apply (startswith_app _ _ tail) in Ep.
        cbn [app] in Ep. rewrite <- Htail in Ep. congruence.
Qed.

End SplitPieces.

Section ChunkerExtras.

Lemma sep_nonempty : sep <> [].
Proof. discriminate. Qed.

Lemma render_length g :
  g <> [] -> (Py.len (render g) = Py.len (concat (map unit_of g)) - 1)%Z.
Proof.
  intros Hg. destruct (render_units g Hg) as (b & Hb & Hr).
  rewrite Hr, Hb. unfold Py.len. rewrite !length_app.
  change (length sep) with 2. change (length (Py.lit ".")) with 1. lia.
Qed.

Lemma groups_count (groups : list (list (list ascii))) :
  Forall (fun g : list (list ascii) => g <> []) groups ->
  length groups <= length (concat groups).
Proof.
  induction 1 as [|g gs Hg _ IH]; [reflexivity|].
  simpl. rewrite length_app. destruct g; [congruence | simpl; lia].
Qed.

(** X1: the chunker returns at least one chunk, and never more chunks than
    the text has sentences. *)
Theorem chunk_count_bounds text max_chunk_size overlap :
  1 <= length (split_into_chunks text max_chunk_size overlap)
    <= length (Py.split text sep).
Proof.
  destruct (chunks_packing max_chunk_size text overlap)
    as (groups & Hc & Hne & _ & He).
  rewrite He, length_map. pose proof (groups_count groups Hne) as Hle.
  rewrite Hc in Hle. split; [|exact Hle].
  destruct groups as [|g gs]; [|simpl; lia].
  simpl in Hc. symmetry in Hc. exfalso.
  exact (split_from_nonempty sep text 0 Hc).
Qed.

(** X2: every chunk is already trimmed: stripping it again changes
    nothing. *)
Theorem chunks_are_trimmed text max_chunk_size overlap :
  Forall (fun c => Py.strip c = c)
         (split_into_chunks text max_chunk_size overlap).
Proof.
  destruct (chunks_packing max_chunk_size text overlap)
    as (groups & _ & Hne & _ & He).
  rewrite He. apply List.Forall_map. revert Hne. apply List.Forall_impl.
  intros g Hg. destruct (render_units g Hg) as (b & Hb & Hr).
  assert (Hh : nospace_head (render g)) by apply strip_head.
  unfold Py.strip at 1. rewrite lstrip_nospace by exact Hh.
  rewrite Hr. apply rstrip_dot.
Qed.

Lemma tight_adjacent max_chunk_size groups :
  Forall (fun g : list (list ascii) => g <> []) groups ->
  tight max_chunk_size groups ->
  Forall (fun cc : list ascii * list ascii =>
            (Py.len (fst cc) + Py.len (snd cc) + 2 > max_chunk_size)%Z)
         (combine (map render groups) (tl (map render groups))).
Proof.
  induction 1 as [|g gs Hg Hgs IH]; intros Ht; [constructor|].
  destruct gs as [|g' gs']; [constructor|].
  cbn [tight] in Ht. destruct Ht as [Hlink Ht].
  cbn [map tl combine]. constructor; [|apply IH; exact Ht].
  inversion Hgs as [|? ? Hg' _]; subst.
  cbn [fst snd]. rewrite !render_length by assumption.
  destruct g' as [|s t]; [congruence|].
  cbn [map concat] in *. rewrite len_app. unfold Py.len in *. lia.
Qed.

(** X3: the packing is greedy. The chunks are the renderings of runs of
    sentences in which the first sentence of each run did not fit behind the
    run before it; so no two neighbouring chunks, joined by a blank, would
    have fitted in the limit together. *)
Theorem chunks_packed_greedily text max_chunk_size overlap :
  (exists groups,
      concat groups = Py.split text sep
      /\ tight max_chunk_size groups
      /\ split_into_chunks text max_chunk_size overlap = map render groups)
  /\ Forall (fun cc : list ascii * list ascii =>
               (Py.len (fst cc) + Py.len (snd cc) + 2 > max_chunk_size)%Z)
            (combine (split_into_chunks text max_chunk_size overlap)
                     (tl (split_into_chunks text max_chunk_size overlap))).
Proof.
  destruct (chunks_packing max_chunk_size text overlap)
    as (groups & Hc & Hne & Ht & He).
  split; [exists groups; auto|].
  rewrite He. apply tight_adjacent; assumption.
Qed.

(** X4: when all the sentences, each trimmed and followed by [". "], fit in
    the limit together, the chunker returns exactly one chunk: all of them,
    one after the other, without the final blank. *)
Theorem chunk_single_when_fits text max_chunk_size overlap :
  (Py.len (concat (map unit_of (Py.split text sep))) <= max_chunk_size)%Z ->
  split_into_chunks text max_chunk_size overlap
  = [render (Py.split text sep)].
Proof.
  intros Hfit.
  destruct (chunks_packing max_chunk_size text overlap)
    as (groups & Hc & Hne & Ht & He).
  rewrite He. destruct groups as [|g [|g' gs]].
  - simpl in Hc. symmetry in Hc. exfalso.
    exact (split_from_nonempty sep text 0 Hc).
  - simpl in Hc. rewrite app_nil_r in Hc. subst g. reflexivity.
  - exfalso. cbn [tight] in Ht. destruct Ht as [Hlink _].
    inversion Hne as [|? ? _ Hne']; subst.
    inversion Hne' as [|? ? Hg' _]; subst.
    destruct g' as [|s t]; [congruence|].
    rewrite <- Hc in Hfit. cbn [concat] in Hfit.
    rewrite !map_app, !concat_app in Hfit. cbn [map concat] in Hfit.
    rewrite !len_app in Hfit. unfold Py.len in *. lia.
Qed.

Lemma chunk_single_when_fits_witness :
  split_into_chunks (Py.lit "Alpha. Beta. Gamma") 1000 200
  = [Py.lit "Alpha. Beta. Gamma."].
Proof.
  apply (chunk_single_when_fits (Py.lit "Alpha. Beta. Gamma") 1000 200).
  vm_compute. discriminate.
Defined.

(** X5: the split of the text into sentences loses nothing: the sentences
    joined with [". "] are the text again, and no sentence contains the
    separator. *)
Theorem sentences_rejoin text :
  Py.join sep (Py.split text sep) = text
  /\ Forall (fun s => contains sep s = false) (Py.split text sep).
Proof.
  split.
  - apply join_split. exact sep_nonempty.
  - apply split_from_no_sep. exact sep_nonempty.
Qed.

End ChunkerExtras.

(* ===================================================================== *)
(** ** Further properties of the embedding client *)
(* ===================================================================== *)

Section EmbeddingExtras.

Context {F : Type} (zero : F) (env : Env F).

Local Abbreviation batch_of texts k :=
  (slice texts (k * BATCH) (k * BATCH + BATCH)).

Local Abbreviation batches texts := ((length texts + (BATCH - 1)) / BATCH).

(** The rows handed to [np.array]: one block per batch, in order. *)
Lemma embed_texts_rows (texts : list (list ascii)) (w : World F) :
  exists w1,
    embed_texts zero env texts w
    = (w1, np_array
             (concat (map (fun j => batch_result zero env (now w + j)
                                      (batch_of texts j))
                          (seq 0 (batches texts)))))
    /\ now w1 = now w + batches texts
    /\ files w1 = files w
    /\ project_knowledge w1 = project_knowledge w
    /\ project_embeddings w1 = project_embeddings w.
Proof.
  unfold embed_texts, py_range.
  destruct (embed_loop_run zero env texts (batches texts) 0 [] w)
    as (w1 & He & Hrest).
  exists w1. rewrite (bind_ok _ _ _ _ _ He). split; [reflexivity | exact Hrest].
Qed.

Lemma embed_batch_stdout texts i embeddings (w : World F) :
  exists entry,
    stdout (fst (embed_batch zero env texts i embeddings w))
    = stdout w ++ [entry].
Proof.
  unfold embed_batch, try_except, bind, tick, lift, print, ret. simpl.
  destruct (embeddings_create env (now w) (slice texts i (i + BATCH)));
    simpl; eauto.
Qed.

Lemma embed_loop_stdout texts starts :
  forall embeddings (w : World F),
  exists l,
    stdout (fst (embed_loop zero env texts starts embeddings w))
    = stdout w ++ l
    /\ length l = length starts.
Proof.
  induction starts as [|i starts IH]; intros embeddings w.
  - exists []. rewrite app_nil_r. split; reflexivity.
  - cbn [embed_loop]. unfold bind.
    destruct (embed_batch_run zero env texts i embeddings w)
      as (w1 & He & _).
    destruct (embed_batch_stdout texts i embeddings w) as [entry Hentry].
    rewrite He in *. cbn [fst] in Hentry.
    destruct (IH (embeddings
                  ++ batch_result zero env (now w) (slice texts i (i + BATCH)))
                w1) as (l & Hl & Hlen).
    exists (entry :: l). rewrite Hl, Hentry, <- app_assoc.
    split; [reflexivity | simpl; lia].
Qed.

(** X6: for every sequence of texts, [embed_texts] calls the service once
    per batch of 100 (none for no text) and prints one line per call; it
    leaves the local files and both tables as they are, whether it returns
    or raises. *)
Theorem embed_texts_calls_and_frame (texts : list (list ascii)) (w : World F) :
  let w' := fst (embed_texts zero env texts w) in
  now w' = now w + (length texts + (BATCH - 1)) / BATCH
  /\ files w' = files w
  /\ project_knowledge w' = project_knowledge w
  /\ project_embeddings w' = project_embeddings w
  /\ exists l,
       stdout w' = stdout w ++ l
       /\ length l = (length texts + (BATCH - 1)) / BATCH.
Proof.
  cbv zeta.
  destruct (embed_texts_rows texts w) as (w1 & He & Hn & Hf & Hk & Hp).
  split; [|split; [|split; [|split]]]; try (rewrite He; assumption).
  unfold embed_texts, bind.
  destruct (embed_loop_stdout texts (py_range (length texts) BATCH) [] w)
    as (l & Hl & Hlen).
  exists l. split.
  - destruct (embed_loop zero env texts (py_range (length texts) BATCH) [] w)
      as [w2 [rows|e]]; exact Hl.
  - rewrite Hlen. unfold py_range. rewrite length_map, length_seq.
    reflexivity.
Qed.

Lemma zeros_of_batches (texts : list (list ascii)) (v : list F) :
  concat (map (fun j => repeat v (length (batch_of texts j)))
              (seq 0 (batches texts)))
  = repeat v (length texts).
Proof.
  assert (Hrep : forall l : list (list ascii),
             repeat v (length l) = map (fun _ => v) l).
  { induction l as [|x l IH]; [reflexivity | simpl; rewrite IH; reflexivity]. }
  rewrite (Hrep texts).
  transitivity
    (map (fun _ : list ascii => v)
         (concat (map (fun i => slice texts i (i + BATCH))
                      (py_range (length texts) BATCH))));
    [|f_equal; apply batches_cover].
  unfold py_range. rewrite concat_map, !map_map. f_equal.
  apply map_ext. intros j. apply Hrep.
Qed.

(** X7: when the service refuses every call, [embed_texts] still returns,
    with one all-zero vector of dimension 1536 per text. *)
Theorem embed_texts_all_failed (texts : list (list ascii)) (w : World F) :
  (forall t batch, exists e, embeddings_create env t batch = Raise e) ->
  snd (embed_texts zero env texts w)
  = Ok (repeat (repeat zero EMBEDDING_DIM) (length texts)).
Proof.
  intros Hdown.
  destruct (embed_texts_rows texts w) as (w1 & He & _).
  rewrite He. cbn [snd].
  assert (Hrows : concat (map (fun j => batch_result zero env (now w + j)
                                          (batch_of texts j))
                              (seq 0 (batches texts)))
                  = repeat (repeat zero EMBEDDING_DIM) (length texts)).
  { rewrite <- (zeros_of_batches texts). f_equal. apply map_ext. intros j.
    unfold batch_result.
    destruct (Hdown (now w + j) (batch_of texts j)) as [e ->]. reflexivity. }
  rewrite Hrows. apply (np_array_rectangular EMBEDDING_DIM).
  apply List.Forall_forall. intros v Hv. apply repeat_spec in Hv. subst v.
  apply repeat_length.
Qed.

Lemma np_array_ragged (rows : list (list F)) a b :
  In a rows -> In b rows -> length a <> length b ->
  exists e, np_array rows = Raise e.
Proof.
  intros Ha Hb Hab. destruct rows as [|r rows]; [destruct Ha|].
  unfold np_array.
  destruct (forallb (fun r' => length r' =? length r) (r :: rows)) eqn:E;
    [exfalso | eauto].
  rewrite forallb_forall in E.
  pose proof (E a Ha) as Ea. pose proof (E b Hb) as Eb.
  apply Nat.eqb_eq in Ea, Eb. congruence.
Qed.

(** X8: [embed_texts] is not safe against a service of another dimension:
    when one batch is refused (and gets vectors of dimension 1536) and
    another batch returns a vector of a different dimension, the rows do not
    form a table and [embed_texts] raises. *)
Theorem embed_texts_ragged_raises (texts : list (list ascii)) (w : World F)
    i j e vs v :
  i * BATCH < length texts ->
  j * BATCH < length texts ->
  embeddings_create env (now w + i) (batch_of texts i) = Raise e ->
  embeddings_create env (now w + j) (batch_of texts j) = Ok vs ->
  In v vs ->
  length v <> EMBEDDING_DIM ->
  exists e', snd (embed_texts zero env texts w) = Raise e'.
Proof.
  intros Hi Hj Hraise Hret Hv Hdim.
  destruct (embed_texts_rows texts w) as (w1 & He & _).
  rewrite He. cbn [snd].
  set (f := fun k => batch_result zero env (now w + k) (batch_of texts k)).
  assert (Hin : forall k x, k * BATCH < length texts -> In x (f k) ->
                            In x (concat (map f (seq 0 (batches texts))))).
  { intros k x Hk Hx. apply List.in_concat. exists (f k). split; [|exact Hx].
    apply List.in_map. apply in_seq.
    pose proof (batches_count (length texts)) as [_ Hc].
    specialize (Hc k Hk). lia. }
  apply (np_array_ragged _ v (repeat zero EMBEDDING_DIM)).
  - apply (Hin j); [exact Hj|]. unfold f, batch_result. rewrite Hret.
    exact Hv.
  - apply (Hin i); [exact Hi|]. unfold f, batch_result. rewrite Hraise.
    unfold zero_embeddings.
    pose proof (slice_length texts i BATCH) as Hl.
    destruct (length (batch_of texts i)) as [|n] eqn:En.
    + unfold BATCH in *. lia.
    + left. reflexivity.
  - rewrite repeat_length. exact Hdim.
Qed.

End EmbeddingExtras.

Lemma embed_texts_all_failed_witness :
  snd (embed_texts 0%Z Outage.env Fixture.texts150 Fixture.w0)
  = Ok (repeat (repeat 0%Z EMBEDDING_DIM) (length Fixture.texts150)).
Proof.
  apply (embed_texts_all_failed 0%Z Outage.env Fixture.texts150 Fixture.w0).
  intros t batch. eexists. reflexivity.
Defined.

Lemma embed_texts_ragged_raises_witness :
  exists e',
    snd (embed_texts 0%Z Mismatch.env Fixture.texts150 Fixture.w0) = Raise e'.
Proof.
  apply (embed_texts_ragged_raises 0%Z Mismatch.env Fixture.texts150
           Fixture.w0 1 0 "rate limit reached"
           (map (fun _ => [1%Z; 2%Z; 3%Z])
                (slice Fixture.texts150 0 100))
           [1%Z; 2%Z; 3%Z]).
  - vm_compute. lia.
  - vm_compute. lia.
  - reflexivity.
  - reflexivity.
  - vm_compute. left. reflexivity.
  - vm_compute. discriminate.
Defined.

(* ===================================================================== *)
(** ** Further properties of the PDF content fetcher *)
(* ===================================================================== *)

Section FetcherExtras.

Context {F : Type} (env : Env F).

Lemma extract_pages_ok pages :
  Forall page_ok pages ->
  forall text_content,
    extract_pages pages text_content
    = Ok (text_content ++ concat (map page_line pages)).
Proof.
  induction 1 as [|p pages Hp _ IH]; intros text_content.
  - simpl. rewrite app_nil_r. reflexivity.
  - destruct p as [[page_text|]|e]; [| |destruct Hp]; cbn [extract_pages].
    + cbn [map concat page_line]. destruct (Py.truthy page_text).
      * rewrite IH, <- !app_assoc. reflexivity.
      * apply IH.
    + apply IH.
Qed.

(** X9: when the download, the write of the scratch file and the opening of
    the PDF succeed and every page can be read, the fetch returns the texts
    of the pages in document order, each followed by a line feed; a page
    without text adds nothing, not even the line feed. *)
Theorem fetch_returns_page_texts file_path (w : World F) data pages :
  storage_download env (now w) file_path = Ok (Some data) ->
  open_wb_fault env (S (now w)) (temp_path_of file_path) = None ->
  pdfplumber_open env data = Ok pages ->
  Forall page_ok pages ->
  snd (get_pdf_content_from_supabase env file_path w)
  = Ok (concat (map page_line pages)).
Proof.
  intros Hd Hw Hp Hok.
  destruct (fetch_cases env file_path w) as (w' & t & He & Hm).
  rewrite Hd, Hw, Hp, (extract_pages_ok pages Hok []) in Hm.
  destruct Hm as [-> _]. rewrite He. reflexivity.
Qed.

(** X10: the fetch leaves both tables of the datastore as they are, and on
    the local disk it touches the scratch file only: every other file is as
    it was, whatever happens. *)
Theorem fetch_touches_only_scratch file_path (w : World F) :
  let w' := fst (get_pdf_content_from_supabase env file_path w) in
  project_knowledge w' = project_knowledge w
  /\ project_embeddings w' = project_embeddings w
  /\ delete (temp_path_of file_path) (files w')
     = delete (temp_path_of file_path) (files w).
Proof.
  cbv zeta.
  pose proof (fetch_keeps_tables env file_path w) as Ht.
  unfold tables in Ht. injection Ht as Hk Hp.
  split; [exact Hk|]. split; [exact Hp|].
  destruct (fetch_cases env file_path w) as (w' & t & He & Hm).
  rewrite He. cbn [fst].
  destruct (storage_download env (now w) file_path) as [[data|]|e];
    try (destruct Hm as [_ ->]; reflexivity).
  destruct (open_wb_fault env (S (now w)) (temp_path_of file_path));
    [destruct Hm as [_ ->]; reflexivity|].
  destruct (pdfplumber_open env data) as [pages|e];
    [destruct (extract_pages pages [])|];
    destruct Hm as [_ ->];
    rewrite ?delete_delete_eq; apply delete_insert_eq.
Qed.

End FetcherExtras.

Lemma fetch_returns_page_texts_witness :
  snd (get_pdf_content_from_supabase Fixture.env "kb/p1/good.pdf" Fixture.w0)
  = Ok Fixture.good_text.
Proof.
  apply (fetch_returns_page_texts Fixture.env "kb/p1/good.pdf" Fixture.w0
           Fixture.good_pdf Fixture.pages_of_good_pdf).
  - reflexivity.
  - reflexivity.
  - reflexivity.
  - repeat constructor.
Defined.

Section ScratchPath.

Lemma has_slash_append a b :
  has_slash (a +:+ b) = has_slash a || has_slash b.
Proof.
  induction a as [|c a IH]; [reflexivity|].
  change (has_slash (String c a +:+ b))
    with (Ascii.eqb c "/" || has_slash (a +:+ b)).
  change (has_slash (String c a)) with (Ascii.eqb c "/" || has_slash a).
  rewrite IH. apply orb_assoc.
Qed.

Lemma basename_no_slash p : has_slash (basename p) = false.
Proof.
  induction p as [|c p IH]; [reflexivity|].
  change (basename (String c p))
    with (if has_slash p then basename p
          else if Ascii.eqb c "/" then p else String c p).
  destruct (has_slash p) eqn:Hp; [exact IH|].
  destruct (Ascii.eqb c "/") eqn:Hc; [exact Hp|].
  change (has_slash (String c p)) with (Ascii.eqb c "/" || has_slash p).
  rewrite Hc, Hp. reflexivity.
Qed.

Lemma basename_without_slash p : has_slash p = false -> basename p = p.
Proof.
  destruct p as [|c p]; [reflexivity|].
  change (has_slash (String c p)) with (Ascii.eqb c "/" || has_slash p).
  change (basename (String c p))
    with (if has_slash p then basename p
          else if Ascii.eqb c "/" then p else String c p).
  intros H. apply orb_false_iff in H.
  destruct H as [Hc Hp]. rewrite Hp, Hc. reflexivity.
Qed.

Lemma basename_after_slash dir name :
  has_slash name = false -> basename (dir +:+ String "/" name) = name.
Proof.
  intros Hn. induction dir as [|c dir IH].
  - change (basename (EmptyString +:+ String "/" name))
      with (if has_slash name then basename name
            else if Ascii.eqb "/" "/" then name else String "/" name).
    rewrite Hn. reflexivity.
  - change (basename (String c dir +:+ String "/" name))
      with (if has_slash (dir +:+ String "/" name)
            then basename (dir +:+ String "/" name)
            else if Ascii.eqb c "/" then dir +:+ String "/" name
                 else String c (dir +:+ String "/" name)).
    rewrite has_slash_append.
    change (has_slash (String "/" name)) with (true || has_slash name).
    rewrite orb_true_l, orb_true_r. exact IH.
Qed.

(** X11: the scratch file is always a file of the working directory: its
    name contains no slash. For a storage path [dir/name] it is
    [temp_name], whatever the folder: documents of the same name in
    different folders share one scratch file. *)
Theorem scratch_path_is_local file_path dir name :
  has_slash (temp_path_of file_path) = false
  /\ (has_slash name = false ->
      temp_path_of (dir +:+ String "/" name) = ("temp_" +:+ name)%string
      /\ temp_path_of name = ("temp_" +:+ name)%string).
Proof.
  split.
  - unfold temp_path_of. rewrite has_slash_append, basename_no_slash.
    reflexivity.
  - intros Hn. unfold temp_path_of.
    rewrite basename_after_slash, basename_without_slash by exact Hn.
    split; reflexivity.
Qed.

Lemma scratch_path_is_local_witness :
  has_slash (temp_path_of "kb/p1/good.pdf") = false
  /\ temp_path_of ("kb/p2" +:+ String "/" "good.pdf") = "temp_good.pdf"%string
  /\ temp_path_of "good.pdf" = "temp_good.pdf"%string.
Proof.
  destruct (scratch_path_is_local "kb/p1/good.pdf" "kb/p2" "good.pdf")
    as [Hlocal Hsame].
  split; [exact Hlocal|]. apply Hsame. reflexivity.
Defined.

End ScratchPath.

(* ===================================================================== *)
(** ** Further properties of the orchestrator *)
(* ===================================================================== *)

Section OrchestratorFrames.

Context {F : Type} (zero : F) (env : Env F).

Section AnyView.

Context {X : Type} (proj : World F -> X).
Hypothesis proj_stdout : ignores_stdout proj.
Hypothesis proj_now : ignores_now proj.

Lemma embed_texts_preserves texts :
  preserves proj (embed_texts zero env texts).
Proof.
  unfold embed_texts. apply preserves_bind; [|intros ?; frame].
  generalize (@nil (list F)).
  induction (py_range (length texts) BATCH) as [|i starts IH];
    intros embeddings; simpl.
  - frame.
  - apply preserves_bind; [unfold embed_batch; frame | exact IH].
Qed.

Hypothesis proj_files : ignores_files proj.

Lemma fetch_preserves file_path :
  preserves proj (get_pdf_content_from_supabase env file_path).
Proof.
  unfold get_pdf_content_from_supabase.
  apply preserves_try; [|intros e; frame].
  apply preserves_bind; [frame|]. intros t.
  apply preserves_bind; [frame|]. intros [data|]; frame.
Qed.

Hypothesis proj_embeddings : ignores_embeddings proj.

Lemma store_preserves project_id knowledge_id n items :
  preserves proj (for_each items (store_chunk env project_id knowledge_id n)).
Proof.
  apply preserves_for_each. intros [i [chunk embedding]].
  unfold store_chunk. frame.
Qed.

(** Processing a record keeps every view of the world that the two status
    updates keep and that does not look at the files, the embeddings, the
    printed lines or the time. *)
Lemma process_preserves project_id knowledge_id file_path file_name :
  (forall n, preserves proj (db_update env knowledge_id (success_patch n))) ->
  (forall e, preserves proj (db_update env knowledge_id (failure_patch e))) ->
  preserves proj
    (process_pdf_and_store_embeddings zero env
       project_id knowledge_id file_path file_name).
Proof.
  intros Hs Hf. unfold process_pdf_and_store_embeddings.
  apply preserves_try.
  - do 2 (apply preserves_bind; [frame|]; intros _).
    apply preserves_bind; [apply fetch_preserves|]. intros text.
    apply preserves_bind; [destruct (Py.truthy text); frame|]. intros _.
    cbv zeta. do 4 (apply preserves_bind; [frame|]; intros _).
    apply preserves_bind; [apply embed_texts_preserves|]. intros embeddings.
    apply preserves_bind; [frame|]. intros _.
    apply preserves_bind; [apply store_preserves|]. intros _.
    apply preserves_bind; [frame|]. intros _. apply Hs.
  - intros e. apply preserves_bind; [frame|]. intros _.
    apply preserves_bind; [apply Hf|]. intros _. frame.
Qed.

Lemma preserves_for_each_in {A} (xs : list A) (f : A -> M F unit) :
  (forall x, In x xs -> preserves proj (f x)) ->
  preserves proj (for_each xs f).
Proof.
  induction xs as [|x xs IH]; intros Hf; simpl.
  - apply preserves_ret.
  - apply preserves_bind; [apply Hf; left; reflexivity|].
    intros _. apply IH. intros y Hy. apply Hf. right. exact Hy.
Qed.

Lemma get_unprocessed_preserves : preserves proj (get_unprocessed_pdfs env).
Proof.
  unfold get_unprocessed_pdfs. apply preserves_try; [|intros e; frame].
  apply preserves_bind; [frame|]. intros t.
  destruct (select_fault env t); [frame|]. intros w. reflexivity.
Qed.

End AnyView.

Lemma identity_ignores :
  ignores_stdout (@identity_columns F) /\ ignores_now (@identity_columns F)
  /\ ignores_files (@identity_columns F)
  /\ ignores_embeddings (@identity_columns F).
Proof. repeat split; intros w v; unfold identity_columns; congruence. Qed.

Lemma others_ignore ids :
  ignores_stdout (@others F ids) /\ ignores_now (@others F ids)
  /\ ignores_files (@others F ids) /\ ignores_embeddings (@others F ids).
Proof. repeat split; intros w v; unfold others; congruence. Qed.

Lemma db_update_keeps_identity knowledge_id patch :
  (forall t r,
      (kr_id (patch t r), kr_project_id (patch t r), kr_file_path (patch t r),
       kr_file_name (patch t r))
      = (kr_id r, kr_project_id r, kr_file_path r, kr_file_name r)) ->
  preserves (@identity_columns F) (db_update env knowledge_id patch).
Proof.
  intros Hp w. unfold db_update, bind, tick. cbn [fst snd now].
  destruct (update_fault env (now w) knowledge_id); [reflexivity|].
  unfold identity_columns, patch_rows. cbn. rewrite map_map.
  apply map_ext. intros r.
  destruct (String.eqb (kr_id r) knowledge_id); [apply Hp | reflexivity].
Qed.

Lemma db_update_keeps_others ids knowledge_id patch :
  In knowledge_id ids ->
  (forall t r, kr_id (patch t r) = kr_id r) ->
  preserves (@others F ids) (db_update env knowledge_id patch).
Proof.
  intros Hin Hp w. unfold db_update, bind, tick. cbn [fst snd now].
  destruct (update_fault env (now w) knowledge_id); [reflexivity|].
  unfold others, patch_rows. cbn. rewrite map_map.
  apply map_ext. intros r.
  destruct (String.eqb (kr_id r) knowledge_id) eqn:E; [|reflexivity].
  rewrite Hp. apply String.eqb_eq in E.
  assert (Hex : existsb (String.eqb (kr_id r)) ids = true).
  { apply existsb_exists. exists knowledge_id. split; [exact Hin|].
    rewrite E. apply String.eqb_refl. }
  rewrite Hex. reflexivity.
Qed.

End OrchestratorFrames.

Section OrchestratorExtras.

Context {F : Type} (zero : F) (env : Env F).






Lemma grown_refl P (w : World F) : grown P w w.
Proof. exists []. rewrite app_nil_r. split; [reflexivity | constructor]. Qed.

Lemma grown_trans P (u v w : World F) :
  grown P u v -> grown P v w -> grown P u w.
Proof.
  intros (r1 & H1 & F1) (r2 & H2 & F2). exists (r1 ++ r2).
  rewrite H2, H1, <- app_assoc. split; [reflexivity|].
  apply Forall_app. split; assumption.
Qed.

Lemma grows_of_preserves {A} P (m : M F A) :
  preserves (@project_embeddings F) m -> grows P m.
Proof.
  intros H w. exists []. rewrite app_nil_r, H.
  split; [reflexivity | constructor].
Qed.

Lemma grows_bind {A B} P (m : M F A) (k : A -> M F B) :
  grows P m -> (forall a, grows P (k a)) -> grows P (bind m k).
Proof.
  intros Hm Hk w. unfold bind. specialize (Hm w).
  destruct (m w) as [w1 [a|e]]; cbn [fst] in *; [|exact Hm].
  eapply grown_trans; [exact Hm | apply Hk].
Qed.

Lemma grows_try {A} P (m : M F A) (h : exn -> M F A) :
  grows P m -> (forall e, grows P (h e)) -> grows P (try_except m h).
Proof.
  intros Hm Hh w. unfold try_except. specialize (Hm w).
  destruct (m w) as [w1 [a|e]]; cbn [fst] in *; [exact Hm|].
  eapply grown_trans; [exact Hm | apply Hh].
Qed.

Lemma grows_for_each_in {A} P (xs : list A) (f : A -> M F unit) :
  (forall x, In x xs -> grows P (f x)) -> grows P (for_each xs f).
Proof.
  induction xs as [|x xs IH]; intros Hf; simpl.
  - intros w. apply grown_refl.
  - apply grows_bind; [apply Hf; left; reflexivity|].
    intros _. apply IH. intros y Hy. apply Hf. right. exact Hy.
Qed.

Lemma grows_weaken {A} (P Q : EmbeddingRow F -> Prop) (m : M F A) :
  (forall r, P r -> Q r) -> grows P m -> grows Q m.
Proof.
  intros HPQ Hm w. destruct (Hm w) as (rows & He & Hf).
  exists rows. split; [exact He|]. revert Hf. apply List.Forall_impl. exact HPQ.
Qed.

Lemma grows_db_insert P row :
  (forall t, P (row t)) -> grows P (db_insert env row).
Proof.
  intros Hrow w. unfold db_insert, bind, tick. cbn [fst snd now].
  destruct (insert_fault env (now w) (row (now w))).
  - exists []. rewrite app_nil_r. split; [reflexivity | constructor].
  - exists [row (now w)]. split; [reflexivity|].
    constructor; [apply Hrow | constructor].
Qed.

Lemma embeddings_view :
  ignores_stdout (@project_embeddings F) /\ ignores_now (@project_embeddings F)
  /\ ignores_files (@project_embeddings F)
  /\ ignores_knowledge (@project_embeddings F).
Proof. repeat split; intros w v; congruence. Qed.

Lemma process_grows project_id knowledge_id file_path file_name :
  grows (fun r => er_project_id r = project_id
                  /\ er_knowledge_id r = knowledge_id)
    (process_pdf_and_store_embeddings zero env
       project_id knowledge_id file_path file_name).
Proof.
  destruct embeddings_view as (Vs & Vn & Vf & Vk).
  unfold process_pdf_and_store_embeddings. apply grows_try.
  - do 2 (apply grows_bind; [apply grows_of_preserves; frame|]; intros _).
    apply grows_bind;
      [apply grows_of_preserves; apply fetch_preserves; assumption|].
    intros text.
    apply grows_bind;
      [apply grows_of_preserves; destruct (Py.truthy text); frame|].
    intros _. cbv zeta.
    do 4 (apply grows_bind; [apply grows_of_preserves; frame|]; intros _).
    apply grows_bind;
      [apply grows_of_preserves; apply embed_texts_preserves; assumption|].
    intros embeddings.
    apply grows_bind; [apply grows_of_preserves; frame|]. intros _.
    apply grows_bind.
    + apply grows_for_each_in. intros [i [chunk embedding]] _.
      unfold store_chunk. apply grows_try.
      * apply grows_bind; [|intros _; apply grows_of_preserves; frame].
        apply grows_db_insert. intros t. split; reflexivity.
      * intros e. apply grows_of_preserves. frame.
    + intros _. apply grows_bind; [apply grows_of_preserves; frame|].
      intros _. apply grows_of_preserves. frame.
  - intros e. apply grows_of_preserves. frame.
Qed.

(** X13: the orchestrator only ever appends to [project_embeddings]: after
    a call, returned or raised, the rows that were there are still there,
    unchanged and in place, followed by new rows that all carry the project
    id and the knowledge id of the call. Nothing is removed or replaced, so
    processing a record again adds its rows again. *)
Theorem process_appends_rows
    project_id knowledge_id file_path file_name (w : World F) :
  exists rows,
    project_embeddings
      (fst (process_pdf_and_store_embeddings zero env
              project_id knowledge_id file_path file_name w))
    = project_embeddings w ++ rows
    /\ Forall (fun r => er_project_id r = project_id
                        /\ er_knowledge_id r = knowledge_id) rows.
Proof.
  destruct (process_grows project_id knowledge_id file_path file_name w)
    as (rows & He & Hf).
  exists rows. split; [exact He | exact Hf].
Qed.

End OrchestratorExtras.

Section StoredRows.

Context {F : Type} (zero : F) (env : Env F).

Lemma try_bind_ok {A B} (m : M F A) (k : A -> M F B) (h : exn -> M F B)
    w w' a :
  m w = (w', Ok a) -> try_except (bind m k) h w = try_except (k a) h w'.
Proof. unfold try_except, bind. intros ->. reflexivity. Qed.

Lemma store_rows project_id knowledge_id n items :
  (forall t row, insert_fault env t row = None) ->
  forall w : World F,
  exists w' rows,
    for_each items (store_chunk env project_id knowledge_id n) w = (w', Ok tt)
    /\ project_embeddings w' = project_embeddings w ++ rows
    /\ map row_key rows = map (key_of_item project_id knowledge_id) items.
Proof.
  intros Hins. induction items as [|[i [chunk embedding]] items IH]; intros w.
  - exists w, []. rewrite app_nil_r. repeat split.
  - cbn [for_each]. unfold bind at 1.
    unfold store_chunk at 1, try_except, db_insert, tick, bind.
    cbn [fst snd now]. rewrite Hins. cbn [print fst snd].
    match goal with
    | |- context [for_each items _ ?w1] =>
        destruct (IH w1) as (w' & rows & He & Hp & Hk)
    end.
    rewrite He. eexists w', (_ :: rows). split; [reflexivity|]. split.
    + rewrite Hp. cbn [project_embeddings]. rewrite <- app_assoc. reflexivity.
    + cbn [map]. rewrite Hk. reflexivity.
Qed.

Lemma tail_keeps_embeddings knowledge_id n l :
  preserves (@project_embeddings F)
    (try_except
       (bind (print l)
             (fun _ => db_update env knowledge_id (success_patch n)))
       (fun e =>
          bind (print (LogProcessError e))
               (fun _ => bind (db_update env knowledge_id (failure_patch e))
                              (fun _ => raise e)))).
Proof. frame. Qed.

(** X14: when the fetch gives a non-empty text, the embedding step returns
    and the datastore accepts every insertion, the call appends to
    [project_embeddings] exactly one row per pair of a chunk and its vector,
    in the order of the chunks, with the chunk text, the vector and the
    position counted from 0 as [chunk_index] (whether or not the final
    status update succeeds). *)
Theorem process_stores_every_chunk
    project_id knowledge_id file_path file_name (w : World F)
    text embeddings :
  let text_chunks :=
    split_into_chunks text default_max_chunk_size default_overlap in
  snd (get_pdf_content_from_supabase env file_path w) = Ok text ->
  text <> [] ->
  snd (embed_texts zero env text_chunks
         (fst (get_pdf_content_from_supabase env file_path w)))
  = Ok embeddings ->
  (forall t row, insert_fault env t row = None) ->
  exists rows,
    project_embeddings
      (fst (process_pdf_and_store_embeddings zero env
              project_id knowledge_id file_path file_name w))
    = project_embeddings w ++ rows
    /\ map row_key rows
       = map (key_of_item project_id knowledge_id)
             (enumerate (combine text_chunks embeddings)).
Proof.
  intros text_chunks Htext Hne Hemb Hins.
  destruct (fetch_in_process env file_path file_name w) as (Ho & Hst & Ht).
  rewrite Htext in Ho.
  set (w1 := fst (print LogExtracting
                    (fst (print (LogProcessing file_name) w)))) in *.
  set (w2 := fst (get_pdf_content_from_supabase env file_path w1)) in *.
  set (w3 := fst (print LogGenerating
                (fst (print (LogCreated (length text_chunks))
                   (fst (print LogSplitting
                      (fst (print (LogExtracted (length text)) w2)))))))).
  assert (Hs3 : same_state
                  (fst (get_pdf_content_from_supabase env file_path w)) w3).
  { eapply same_state_trans; [exact Hst|]. repeat split. }
  destruct (respects_embed_texts zero env text_chunks _ _ Hs3) as [He3 _].
  rewrite Hemb in He3. symmetry in He3.
  set (w4 := fst (embed_texts zero env text_chunks w3)) in *.
  assert (Ht4 : tables w4 = tables w).
  { unfold w4. rewrite embed_texts_keeps_tables. exact Ht. }
  set (w5 := fst (print LogStoring w4)).
  destruct (store_rows project_id knowledge_id (length text_chunks)
              (enumerate (combine text_chunks embeddings)) Hins w5)
    as (w6 & rows & Hstore & Hp6 & Hk6).
  assert (Htruthy : Py.truthy text = true).
  { clear - Hne. destruct text; [contradiction | reflexivity]. }
  exists rows. split; [|exact Hk6].
  unfold process_pdf_and_store_embeddings.
  erewrite try_bind_ok by reflexivity.
  erewrite try_bind_ok by reflexivity.
  erewrite try_bind_ok by (apply run_eq; exact Ho).
  rewrite Htruthy.
  erewrite try_bind_ok by reflexivity.
  erewrite try_bind_ok by reflexivity.
  erewrite try_bind_ok by reflexivity.
  cbv zeta.
  erewrite try_bind_ok by reflexivity.
  erewrite try_bind_ok by reflexivity.
  erewrite try_bind_ok by (apply run_eq; exact He3).
  erewrite try_bind_ok by reflexivity.
  erewrite try_bind_ok by exact Hstore.
  rewrite tail_keeps_embeddings, Hp6.
  change (project_embeddings w5) with (project_embeddings w4).
  unfold tables in Ht4. injection Ht4 as _ Hp4. rewrite Hp4. reflexivity.
Qed.

End StoredRows.


Lemma process_stores_every_chunk_witness :
  exists rows,
    project_embeddings
      (fst (process_pdf_and_store_embeddings 0%Z Fixture.env
              "p1" "k1" "kb/p1/good.pdf" "good.pdf" Fixture.w0))
    = project_embeddings Fixture.w0 ++ rows
    /\ map row_key rows
       = map (key_of_item "p1" "k1")
             (enumerate
                (combine
                   (split_into_chunks Fixture.good_text
                      default_max_chunk_size default_overlap)
                   [Fixture.unit_vector])).
Proof.
  apply (process_stores_every_chunk 0%Z Fixture.env
           "p1" "k1" "kb/p1/good.pdf" "good.pdf" Fixture.w0
           Fixture.good_text [Fixture.unit_vector]).
  - vm_compute. reflexivity.
  - discriminate.
  - vm_compute. reflexivity.
  - intros t row. reflexivity.
Defined.

Section ScanExtras.

Context {F : Type} (zero : F) (env : Env F).

(** X15: the scan never adds, removes or reorders rows of
    [project_knowledge] and never changes the id, the project, the path or
    the name of a record: it only writes status columns. *)
Theorem scan_keeps_identity (w : World F) :
  identity_columns (fst (process_all_unprocessed_pdfs zero env w))
  = identity_columns w.
Proof.
  destruct (@identity_ignores F) as (Vs & Vn & Vf & Ve).
  revert w. change (preserves (@identity_columns F)
                      (process_all_unprocessed_pdfs zero env)).
  unfold process_all_unprocessed_pdfs.
  apply preserves_bind; [apply get_unprocessed_preserves; assumption|].
  intros records. apply preserves_bind; [frame|]. intros _.
  apply preserves_for_each. intros r. unfold process_record.
  apply preserves_try; [|intros e; frame].
  apply process_preserves; try assumption;
    intros ?; apply db_update_keeps_identity; intros t r0; reflexivity.
Qed.

Lemma get_unprocessed_run (w : World F) :
  exists wq,
    get_unprocessed_pdfs env w
    = (wq, Ok match select_fault env (now w) with
              | None => filter (fun r => negb (kr_processed r))
                               (project_knowledge w)
              | Some _ => []
              end)
    /\ project_knowledge wq = project_knowledge w
    /\ project_embeddings wq = project_embeddings w.
Proof.
  unfold get_unprocessed_pdfs, try_except, bind, tick. cbn [fst snd now].
  destruct (select_fault env (now w)) as [e|]; cbn; eexists; repeat split.
Qed.

(** X16: the scan touches nothing but what belongs to the records the
    query returned: every knowledge record whose id is not the id of one of
    them is left exactly as it was, at its place (a record processed
    earlier, with an id of its own, is never written again), and
    [project_embeddings] only grows, by rows whose knowledge id is the id
    of one of them. When the query raises or returns nothing, neither table
    changes. *)
Theorem scan_touches_only_unprocessed (w : World F) :
  let records :=
    match select_fault env (now w) with
    | None => filter (fun r => negb (kr_processed r)) (project_knowledge w)
    | Some _ => []
    end in
  let ids := map kr_id records in
  let w' := fst (process_all_unprocessed_pdfs zero env w) in
  others ids w' = others ids w
  /\ exists rows,
       project_embeddings w' = project_embeddings w ++ rows
       /\ Forall (fun r => In (er_knowledge_id r) ids) rows.
Proof.
  intros records ids. cbv zeta.
  destruct (get_unprocessed_run w) as (wq & Hq & Hk & Hp).
  fold records in Hq.
  unfold process_all_unprocessed_pdfs.
  rewrite (bind_ok _ _ _ _ _ Hq).
  erewrite bind_ok by reflexivity.
  destruct (@others_ignore F ids) as (Vs & Vn & Vf & Ve).
  assert (Hin : forall r, In r records -> In (kr_id r) ids).
  { intros r Hr. apply List.in_map. exact Hr. }
  split.
  - rewrite (preserves_for_each_in (others ids) records
               (process_record zero env)).
    + unfold others. cbn [print fst project_knowledge].
      rewrite Hk. reflexivity.
    + intros r Hr. unfold process_record.
      apply preserves_try; [|intros e; frame].
      apply process_preserves; try assumption;
        intros ?; apply db_update_keeps_others;
        (apply Hin; exact Hr) || (intros t r0; reflexivity).
  - assert (Hg : grows (fun r => In (er_knowledge_id r) ids)
                   (for_each records (process_record zero env))).
    { apply grows_for_each_in. intros r Hr. unfold process_record.
      apply grows_try.
      - apply (grows_weaken
                 (fun r' => er_project_id r' = kr_project_id r
                            /\ er_knowledge_id r' = kr_id r));
          [|apply process_grows].
        intros r' [_ Hid]. rewrite Hid. apply Hin. exact Hr.
      - intros e. apply grows_of_preserves.
        destruct (@embeddings_view F) as (Es & En & Ef & Ek). frame. }
    match goal with
    | |- context [for_each records _ ?wx] =>
        destruct (Hg wx) as (rows & He & Hf)
    end.
    exists rows. split; [|exact Hf].
    etransitivity; [exact He|]. f_equal. exact Hp.
Qed.

End ScanExtras.

Section QueueQuery.

Context {F : Type} (env : Env F).

(** X17: the query of the work queue never raises: it returns the records
    of [project_knowledge] with [processed = false], in the order of the
    table, and when the datastore refuses the query it returns no record at
    all, as if the queue were empty; the tables and the files are left as
    they are. *)
Theorem get_unprocessed_never_raises (w : World F) :
  exists w',
    get_unprocessed_pdfs env w
    = (w', Ok match select_fault env (now w) with
              | None => filter (fun r => negb (kr_processed r))
                               (project_knowledge w)
              | Some _ => []
              end)
    /\ project_knowledge w' = project_knowledge w
    /\ project_embeddings w' = project_embeddings w
    /\ files w' = files w.
Proof.
  unfold get_unprocessed_pdfs, try_except, bind, tick. cbn [fst snd now].
  destruct (select_fault env (now w)) as [e|]; cbn; eexists; repeat split.
Qed.

End QueueQuery.

Section SmallLimits.

Variable max_chunk_size : Z.
Hypothesis tiny : (max_chunk_size < 4)%Z.

Lemma unit_of_length s : (2 <= Py.len (unit_of s))%Z.
Proof.
  unfold unit_of. rewrite len_app. change (Py.len sep) with 2%Z.
  unfold Py.len. lia.
Qed.

Lemma flush_unit chunks s :
  flush chunks (unit_of s) = chunks ++ [Py.strip s ++ Py.lit "."].
Proof.
  unfold flush. pose proof (render_one s) as Hr. unfold render in Hr.
  simpl in Hr. rewrite app_nil_r in Hr. rewrite Hr.
  destruct (Py.strip s); reflexivity.
Qed.

Lemma tiny_loop sentences :
  forall chunks s0,
    flush (fst (chunk_loop max_chunk_size sentences (chunks, unit_of s0)))
          (snd (chunk_loop max_chunk_size sentences (chunks, unit_of s0)))
    = chunks ++ map (fun s => Py.strip s ++ Py.lit ".") (s0 :: sentences).
Proof.
  induction sentences as [|s rest IH]; intros chunks s0.
  - apply flush_unit.
  - rewrite chunk_loop_cons, chunk_step_eq.
    pose proof (unit_of_length s0) as H0. pose proof (unit_of_length s) as H1.
    assert (Hover : (Py.len (unit_of s0) + Py.len (unit_of s)
                     >? max_chunk_size)%Z = true) by lia.
    rewrite Hover, flush_unit, IH, <- app_assoc. reflexivity.
Qed.

End SmallLimits.

(** X18: a size limit below 4 (zero and negative limits too) is no error
    and no endless loop: no two sentences ever fit together, and the chunker
    returns one chunk per sentence, the trimmed sentence followed by a
    period. *)
Theorem chunks_under_tiny_limit text max_chunk_size overlap :
  (max_chunk_size < 4)%Z ->
  split_into_chunks text max_chunk_size overlap
  = map (fun s => Py.strip s ++ Py.lit ".") (Py.split text sep).
Proof.
  intros Htiny. unfold split_into_chunks.
  destruct (Py.split text sep) as [|s rest] eqn:Es.
  - exfalso. exact (split_from_nonempty sep text 0 Es).
  - rewrite chunk_loop_cons, chunk_step_eq.
    assert (Hfirst : (if (Py.len [] + Py.len (unit_of s) >? max_chunk_size)%Z
                      then (flush [] [], unit_of s)
                      else ([], [] ++ unit_of s))
                     = ([], unit_of s)).
    { destruct (Py.len [] + Py.len (unit_of s) >? max_chunk_size)%Z;
        reflexivity. }
    rewrite Hfirst. pose proof (tiny_loop max_chunk_size Htiny rest [] s) as Hl.
    destruct (chunk_loop max_chunk_size rest ([], unit_of s)) as [cs cur].
    exact Hl.
Qed.

Lemma chunks_under_tiny_limit_witness :
  split_into_chunks (Py.lit "a. b.  c") (-5) 200
  = [Py.lit "a."; Py.lit "b."; Py.lit "c."].
Proof.
  apply (chunks_under_tiny_limit (Py.lit "a. b.  c") (-5) 200). reflexivity.
Defined.
